(** * A shallow embedding of the C3D codec of py-c3d ([c3d.py])

    The module reads and writes C3D motion-capture files: a 512-byte
    header, a chained directory of parameter groups, and a data section
    of point and analog frames.  Python floats are IEEE binary64 and are
    modelled by Rocq's primitive [float]; numpy [float32] storage is
    modelled by rounding to binary32 ([to_float32]); fixed-width integers
    are [Z] with their wrap-around written out; bytes are [Z] values in
    [0, 256). *)

From Stdlib Require Import ZArith Lia List Bool String Ascii.
From Stdlib Require Import Floats.
Import ListNotations.

Open Scope string_scope.
Open Scope list_scope.
Open Scope Z_scope.

(** ** Python exceptions and the error monad *)

(** The exceptions the modelled code can raise.  [AssertionError] carries
    the values printed in the assertion message (the header/parameter
    values that disagree). *)
Inductive exn :=
| AssertionError (what : string) (vals : list float)
| ValueError (what : string)
| IOError (what : string)
| IndexError (what : string)
| KeyError_id (k : Z)
| KeyError_name (k : string)
| TypeError (what : string)
| AttributeError (what : string)
| StructError
| UnicodeDecodeError
| ZeroDivisionError.

Inductive result (A : Type) :=
| Ok (a : A)
| Err (e : exn).
Arguments Ok {A} a.
Arguments Err {A} e.

Definition bind {A B} (m : result A) (f : A -> result B) : result B :=
  match m with
  | Ok a => f a
  | Err e => Err e
  end.

Notation "x <- m ;; k" := (bind m (fun x => k))
  (at level 61, m at next level, right associativity).

(** ** Numbers *)

Definition float_of_Z (z : Z) : float :=
  if z <? 0 then PrimFloat.opp (PrimFloat.of_uint63 (Uint63.of_Z (- z)))
  else PrimFloat.of_uint63 (Uint63.of_Z z).

(** Conversion of a float to an integer by truncation toward zero (the C
    cast numpy performs in [astype] for in-range values); NaN and the
    infinities give 0. *)
Definition trunc_Z (f : float) : Z :=
  match FloatOps.Prim2SF f with
  | SpecFloat.S754_finite s m e =>
      let a := if e >=? 0 then Z.shiftl (Zpos m) e else Z.shiftr (Zpos m) (- e) in
      if s then - a else a
  | _ => 0
  end.

(** [x.astype(np.uint16)] and [x.astype(np.uint8)] on a float array. *)
Definition f_astype_uint16 (f : float) : Z := trunc_Z f mod 65536.
Definition f_astype_uint8 (f : float) : Z := trunc_Z f mod 256.

(** [x.astype(np.uint16)] on an [int16] array: two's complement wrap. *)
Definition i_astype_uint16 (z : Z) : Z := z mod 65536.

(** Storing a Python float in an [array.array('f')] (or a numpy float32
    cell): round to nearest binary32, ties to even. *)
Definition to_float32 (f : float) : float :=
  FloatOps.SF2Prim
    (match FloatOps.Prim2SF f with
     | SpecFloat.S754_finite s m e => SpecFloat.binary_round 24 128 s m e
     | x => x
     end).

(** ** Point records of the data section *)

(** A raw value read from the data section: a signed 16-bit integer when
    the point scale factor is non-negative, a 32-bit float otherwise. *)
Inductive cell :=
| CInt (z : Z)
| CFloat (f : float).

(** One decoded point: the row of the [points] array built by
    [Reader.read_frames]. *)
Record point := mkPoint { px : float; py : float; pz : float;
                          perr : float; pcam : float }.

(** [sum((c & (1 << k)) >> k for k in range(8, 17))] *)
Definition camera_bits (c : Z) : Z :=
  fold_left (fun acc k => acc + Z.shiftr (Z.land c (Z.shiftl 1 k)) k)
            (map Z.of_nat (seq 8 9)) 0.

(** [raw[:, :3] * point_scale] for one raw value. *)
Definition scale_cell (point_scale : float) (c : cell) : float :=
  match c with
  | CInt z => PrimFloat.mul (float_of_Z z) point_scale
  | CFloat f => f
  end.

(** [raw[:, 3] > -1] *)
Definition cell_valid (c : cell) : bool :=
  match c with
  | CInt z => -1 <? z
  | CFloat f => PrimFloat.ltb (PrimFloat.opp 1%float) f
  end.

(** [raw[valid, 3].astype(np.uint16)] *)
Definition cell_uint16 (c : cell) : Z :=
  match c with
  | CInt z => i_astype_uint16 z
  | CFloat f => f_astype_uint16 f
  end.

(** The per-point body of the loop of [Reader.read_frames], for the scale
    factor [sf] returned by [self.scale_factor()] (POINT:SCALE). *)
Definition decode_point (sf : float) (r0 r1 r2 r3 : cell) : point :=
  let scale := PrimFloat.abs sf in
  let is_float := PrimFloat.ltb sf 0%float in
  let point_scale := if is_float then 1%float else scale in
  let x := scale_cell point_scale r0 in
  let y := scale_cell point_scale r1 in
  let z := scale_cell point_scale r2 in
  if cell_valid r3 then
    let c := cell_uint16 r3 in
    mkPoint x y z (PrimFloat.mul (float_of_Z (Z.land c 255)) scale)
            (float_of_Z (camera_bits c))
  else
    mkPoint x y z (PrimFloat.opp 1%float) (PrimFloat.opp 1%float).

(** ** The encoder's data section ([Writer._write_frames]) *)

(** A buffered frame: its [points] array (rows of x, y, z, residual-error,
    camera-count) and its [analog] array. *)
Record frame := mkFrame { fpoints : list point; fanalog : list (list float) }.

(** One row of the encoder's scratch array [raw] (4 floats). *)
Record row := mkRow { r0 : float; r1 : float; r2 : float; r3 : float }.

(** The assignments to one row of [raw] in the loop of [_write_frames]:
    {v
    valid = points[:, 3] > -1
    raw[~valid, 3] = -1
    raw[valid, :3] = points[valid, :3] / self.point_scale_factor
    raw[valid, 3] = (points[valid, 4].astype(np.uint8) << 8) |
                    (points[valid, 3] / scale).astype(np.uint16)
    v}
    numpy keeps [uint8 << 8] in [uint8], so the shifted byte wraps
    modulo 256; rows of invalid points keep their previous x, y, z. *)
Definition encode_row (scale psf : float) (prev : row) (p : point) : row :=
  if PrimFloat.ltb (PrimFloat.opp 1%float) (perr p) then
    mkRow (PrimFloat.div (px p) psf) (PrimFloat.div (py p) psf)
          (PrimFloat.div (pz p) psf)
          (float_of_Z
             (Z.lor (Z.shiftl (f_astype_uint8 (pcam p)) 8 mod 256)
                    (f_astype_uint16 (PrimFloat.div (perr p) scale))))
  else mkRow (r0 prev) (r1 prev) (r2 prev) (PrimFloat.opp 1%float).

Definition row_values (r : row) : list float := [r0 r; r1 r; r2 r; r3 r].

(** [a = array.array(fmt); a.extend(values)]: the format ['f'] rounds
    every value to binary32; the format ['i'] refuses float values. *)
Definition array_extend (is_float : bool) (vs : list float) : result (list cell) :=
  if is_float then Ok (map (fun v => CFloat (to_float32 v)) vs)
  else match vs with
       | [] => Ok []
       | _ :: _ => Err (TypeError "integer argument expected, got float")
       end.

(** One iteration of the frame loop of [_write_frames], from the scratch
    array [raw]; returns the new [raw] and the cells written to the handle.
    The analog part reads
    {v
    analog = array.array(point_format)
    analog.extend(analog)
    analog.tofile(handle)
    v}
    where the new empty array shadows the frame's analog values. *)
Definition write_frame (is_float : bool) (scale psf : float) (ppf : nat)
    (raw : list row) (f : frame) : result (list row * list cell) :=
  if negb (Nat.eqb (List.length (fpoints f)) ppf) then
    Err (IndexError "boolean index did not match indexed array along dimension 0")
  else
    let raw' := map (fun '(prev, p) => encode_row scale psf prev p)
                    (combine raw (fpoints f)) in
    point <- array_extend is_float (flat_map row_values raw') ;;
    let analog := @nil float in
    analog_arr <- array_extend is_float (analog ++ analog) ;;
    Ok (raw', point ++ analog_arr).

(** [Writer._write_frames(handle)].  [tell] is the handle position on
    entry, [sf] is [self.scale_factor()] (POINT:SCALE), [psf] is the
    writer's [point_scale_factor], [ppf] is [self.points_per_frame()] and
    [raw0] the initial content of [np.empty((ppf, 4))].  The result is the
    sequence of cells written to the handle and the outcome: the final
    [self._pad_block()] reads [self._handle], an attribute a [Writer]
    never sets. *)
Fixpoint write_frames_loop (is_float : bool) (scale psf : float) (ppf : nat)
    (raw : list row) (fs : list frame) (out : list cell) : list cell * result unit :=
  match fs with
  | [] => (out, Err (AttributeError "'Writer' object has no attribute '_handle'"))
  | f :: fs' =>
      match write_frame is_float scale psf ppf raw f with
      | Ok (raw', written) => write_frames_loop is_float scale psf ppf raw' fs' (out ++ written)
      | Err e => (out, Err e)
      end
  end.

Definition write_frames (tell data_block : Z) (sf psf : float) (ppf : nat)
    (raw0 : list row) (fs : list frame) : list cell * result unit :=
  if negb (tell =? 512 * (data_block - 1)) then
    ([], Err (AssertionError "tell" []))
  else
    let scale := PrimFloat.abs sf in
    let is_float := PrimFloat.ltb sf 0%float in
    write_frames_loop is_float scale psf ppf raw0 fs [].

(** The content of [raw] after the frame loop of [_write_frames] has run
    over the frames [fs], starting from [raw]. *)
Definition raw_after (scale psf : float) (raw : list row) (fs : list frame) : list row :=
  fold_left (fun raw f => map (fun '(prev, p) => encode_row scale psf prev p)
                              (combine raw (fpoints f)))
            fs raw.

(** ** The decoder's point loop ([Reader.read_frames]) *)

(** The [ppf] point records of one frame, 4 raw values each, as
    [raw.reshape((ppf, 4))] groups them. *)
Fixpoint decode_points (sf : float) (ppf : nat) (cs : list cell) : option (list point) :=
  match ppf, cs with
  | O, _ => Some []
  | S n, c0 :: c1 :: c2 :: c3 :: rest =>
      match decode_points sf n rest with
      | Some ps => Some (decode_point sf c0 c1 c2 c3 :: ps)
      | None => None
      end
  | S _, _ => None
  end.

(** ** Python dicts *)

(** A Python [dict] as an association list in insertion order: setting an
    existing key keeps its position, a new key goes last. *)
Section Dict.
Context {K V : Type} (keqb : K -> K -> bool).

Fixpoint dict_get (k : K) (d : list (K * V)) : option V :=
  match d with
  | [] => None
  | (k', v) :: d' => if keqb k k' then Some v else dict_get k d'
  end.

Definition dict_mem (k : K) (d : list (K * V)) : bool :=
  match dict_get k d with Some _ => true | None => false end.

Fixpoint dict_replace (k : K) (v : V) (d : list (K * V)) : list (K * V) :=
  match d with
  | [] => []
  | (k', v') :: d' =>
      if keqb k k' then (k', v) :: d' else (k', v') :: dict_replace k v d'
  end.

Definition dict_set (k : K) (v : V) (d : list (K * V)) : list (K * V) :=
  if dict_mem k d then dict_replace k v d else d ++ [(k, v)].
End Dict.

(** [str.upper()] on ASCII text. *)
Definition upper_ascii (c : ascii) : ascii :=
  let n := nat_of_ascii c in
  if (97 <=? n)%nat && (n <=? 122)%nat then ascii_of_nat (n - 32) else c.

Fixpoint upper (s : string) : string :=
  match s with
  | EmptyString => EmptyString
  | String c s' => String (upper_ascii c) (upper s')
  end.

(** ** Parameters, groups and the metadata store *)

(** [Param]: [bytes_per_element] is -1 for character data. *)
Record param := mkParam {
  pname : string;
  pdesc : string;
  bytes_per_element : Z;
  dimensions : list Z;
  pbytes : list Z }.

(** [Param.num_elements] and [Param.total_bytes]. *)
Definition num_elements (p : param) : Z := fold_left Z.mul (dimensions p) 1.
Definition total_bytes (p : param) : Z := num_elements p * Z.abs (bytes_per_element p).

(** [Param.binary_size()].  A name or description is held as its UTF-8
    bytes (a [unicode] object read from a file, see [utext], or ASCII
    text), so [len(s.encode('utf-8'))] is its length. *)
Definition param_binary_size (p : param) : Z :=
  1 + 2 + 1 + Z.of_nat (String.length (pname p)) + 1
  + 1 + Z.of_nat (List.length (dimensions p)) + total_bytes p
  + 1 + Z.of_nat (String.length (pdesc p)).

(** [Group]: [Group()] leaves [name] and [desc] at [None]. *)
Record group := mkGroup {
  gname : option string;
  gdesc : option string;
  gparams : list (string * param) }.

Definition placeholder_group : group := mkGroup None None [].

(** [Group.add_param(name, ...)] with an already constructed [Param]. *)
Definition group_add_param (g : group) (p : param) : group :=
  mkGroup (gname g) (gdesc g)
          (dict_set String.eqb (upper (pname p))
             (mkParam (upper (pname p)) (pdesc p) (bytes_per_element p)
                      (dimensions p) (pbytes p))
             (gparams g)).

(** [str.encode('utf-8')] on a Python 2 byte string: the string is
    first decoded with the default ASCII codec, so a byte of 128 or more
    raises [UnicodeDecodeError]; ASCII text encodes to itself. *)
Definition str_encode_utf8 (s : string) : result string :=
  if forallb (fun c => (nat_of_ascii c <? 128)%nat) (list_ascii_of_string s) then Ok s
  else Err UnicodeDecodeError.

(** [Group.binary_size()]: [None.encode] raises for a placeholder group
    that never received a name or description.  The name and the
    description are byte strings ([str]): the writer passes literals to
    [add_group], and the reader stores the description bytes undecoded.
    (A name the reader decoded from non-ASCII UTF-8 is a [unicode] object,
    whose [encode] succeeds; this definition does not cover that case.) *)
Definition group_binary_size (g : group) : result Z :=
  match gname g, gdesc g with
  | Some n, Some d =>
      n' <- str_encode_utf8 n ;;
      d' <- str_encode_utf8 d ;;
      Ok (1 + 1 + Z.of_nat (String.length n') + 2 + 1 + Z.of_nat (String.length d')
          + fold_left Z.add (map (fun '(_, p) => param_binary_size p) (gparams g)) 0)
  | Some n, None =>
      _ <- str_encode_utf8 n ;;
      Err (AttributeError "'NoneType' object has no attribute 'encode'")
  | None, _ => Err (AttributeError "'NoneType' object has no attribute 'encode'")
  end.

(** The [Header] record. *)
Record header := mkHeader {
  parameter_block : Z;
  point_count : Z;
  analog_count : Z;
  first_frame : Z;
  last_frame : Z;
  max_gap : Z;
  scale_factor : float;
  data_block : Z;
  sample_per_frame : Z;
  frame_rate : float;
  long_event_labels : Z;
  label_block : Z }.

(** [Header()] defaults. *)
Definition default_header : header :=
  mkHeader 2 50 0 1 1 0 (PrimFloat.opp 1%float) 3 0 60%float 0 0.

(** The keys of [Manager.groups]: numeric ids and (upper-cased) names. *)
Inductive key := KId (id : Z) | KName (n : string).

Definition key_eqb (a b : key) : bool :=
  match a, b with
  | KId x, KId y => Z.eqb x y
  | KName x, KName y => String.eqb x y
  | _, _ => false
  end.

(** [Manager]: the dict [self.groups] maps keys to shared [Group]
    objects; the objects live in [arena] and the dict holds their indices,
    so a group indexed by id and by name is one object. *)
Record manager := mkManager {
  mheader : header;
  arena : list group;
  groups : list (key * nat) }.

Definition set_arena (m : manager) (a : list group) : manager :=
  mkManager (mheader m) a (groups m).
Definition set_groups (m : manager) (g : list (key * nat)) : manager :=
  mkManager (mheader m) (arena m) g.
Definition set_header (m : manager) (h : header) : manager :=
  mkManager h (arena m) (groups m).

(** Mutating the group object at index [r]. *)
Fixpoint update_nth {A} (n : nat) (f : A -> A) (l : list A) : list A :=
  match n, l with
  | _, [] => []
  | O, x :: l' => f x :: l'
  | S n', x :: l' => x :: update_nth n' f l'
  end.

(** A state-and-error monad over a piece of state [S]: the state is
    returned also when an exception is raised, so that what the code did
    before raising stays observable. *)
Definition st (S A : Type) := S -> result A * S.

Definition st_ret {S A} (a : A) : st S A := fun s => (Ok a, s).
Definition st_raise {S A} (e : exn) : st S A := fun s => (Err e, s).
Definition st_bind {S A B} (m : st S A) (f : A -> st S B) : st S B :=
  fun s => match m s with
           | (Ok a, s') => f a s'
           | (Err e, s') => (Err e, s')
           end.

Notation "x <-- m ;; k" := (st_bind m (fun x => k))
  (at level 61, m at next level, right associativity).

(** [Manager.add_group(group_id, name, desc)]; returns the index of the
    new group object.  The chained assignment
    [self.groups[name] = self.groups[group_id] = Group(name, desc)] sets
    the name key first. *)
Definition add_group (gid : Z) (name desc : string) : st manager nat :=
  fun m =>
    if dict_mem key_eqb (KId gid) (groups m) then (Err (KeyError_id gid), m)
    else
      let name := upper name in
      if dict_mem key_eqb (KName name) (groups m) then (Err (KeyError_name name), m)
      else
        let r := List.length (arena m) in
        (Ok r,
         mkManager (mheader m) (arena m ++ [mkGroup (Some name) (Some desc) []])
                   (dict_set key_eqb (KId gid) r
                      (dict_set key_eqb (KName name) r (groups m)))).

(** [Manager.parameter_blocks()]:
    [int(np.ceil((4. + sum(g.binary_size() for g in self.groups.values())) / 512))].
    The sum runs over the dict's values, one per key.  The float
    arithmetic is exact here (integers below 2^53 divided by a power of
    two), so the ceiling is the integer one. *)
Definition parameter_blocks (m : manager) : result Z :=
  let fix sizes (es : list (key * nat)) : result Z :=
    match es with
    | [] => Ok 0
    | (_, r) :: es' =>
        match nth_error (arena m) r with
        | Some g => s <- group_binary_size g ;; t <- sizes es' ;; Ok (s + t)
        | None => Err (KeyError_id (Z.of_nat r))
        end
    end in
  s <- sizes (groups m) ;;
  Ok (- ((- (4 + s)) / 512)).

(** ** Decoding the parameter directory ([Reader.__init__]) *)

(** [io.BytesIO(...).read(n)]: a short read returns what is left. *)
Definition buf_read (n : nat) (buf : list Z) : list Z * list Z :=
  (firstn n buf, skipn n buf).

(** [struct.unpack('b', ...)], ['B'] and ['<h'] on bytes of [buf_read];
    a short buffer raises [struct.error]. *)
Definition unpack_B (bs : list Z) : result Z :=
  match bs with [b] => Ok b | _ => Err StructError end.

Definition signed8 (b : Z) : Z := if b <? 128 then b else b - 256.

Definition unpack_b (bs : list Z) : result Z :=
  b <- unpack_B bs ;; Ok (signed8 b).

Definition uint16_le (lo hi : Z) : Z := lo + 256 * hi.
Definition signed16 (u : Z) : Z := if u <? 32768 then u else u - 65536.

Definition unpack_h (bs : list Z) : result Z :=
  match bs with [lo; hi] => Ok (signed16 (uint16_le lo hi)) | _ => Err StructError end.

Definition unpack_H (bs : list Z) : result Z :=
  match bs with [lo; hi] => Ok (uint16_le lo hi) | _ => Err StructError end.

(** Raw bytes kept as a byte string (the group description is not
    decoded). *)
Definition bytes_to_string (bs : list Z) : string :=
  string_of_list_ascii (map (fun b => ascii_of_nat (Z.to_nat b)) bs).

(** Python 2.7's strict UTF-8 decoder ([PyUnicode_DecodeUTF8], wide
    build): the code points of a well-formed byte string, [None] where
    [bytes.decode('utf-8')] raises [UnicodeDecodeError].  A lead byte
    C2..DF takes one continuation byte (80..BF), E0..EF two (after E0 the
    first one is at least A0; the encoded surrogates ED A0..BF are
    accepted, as in Python 2), F0..F4 three (after F0 the first one is at
    least 90, after F4 at most 8F); 80..C1 and F5..FF are invalid start
    bytes, and a sequence cut short by the end of the data is an error. *)
Definition utf8_cont (b : Z) : bool := (128 <=? b) && (b <? 192).

Fixpoint utf8_decode (bs : list Z) : option (list Z) :=
  match bs with
  | [] => Some []
  | b0 :: r =>
      if b0 <? 128 then option_map (cons b0) (utf8_decode r)
      else if (194 <=? b0) && (b0 <=? 223) then
        match r with
        | b1 :: r' =>
            if utf8_cont b1
            then option_map (cons (Z.land b0 31 * 64 + Z.land b1 63)) (utf8_decode r')
            else None
        | [] => None
        end
      else if (224 <=? b0) && (b0 <=? 239) then
        match r with
        | b1 :: b2 :: r' =>
            if utf8_cont b1 && utf8_cont b2 && negb ((b0 =? 224) && (b1 <? 160))
            then option_map (cons (Z.land b0 15 * 4096 + Z.land b1 63 * 64 + Z.land b2 63))
                            (utf8_decode r')
            else None
        | _ => None
        end
      else if (240 <=? b0) && (b0 <=? 244) then
        match r with
        | b1 :: b2 :: b3 :: r' =>
            if utf8_cont b1 && utf8_cont b2 && utf8_cont b3
               && negb ((b0 =? 240) && (b1 <? 144)) && negb ((b0 =? 244) && (143 <? b1))
            then option_map (cons (Z.land b0 7 * 262144 + Z.land b1 63 * 4096
                                   + Z.land b2 63 * 64 + Z.land b3 63))
                            (utf8_decode r')
            else None
        | _ => None
        end
      else None
  end.

(** The UTF-8 encoding of one code point (Python 2's wide-build encoder,
    which also encodes a lone surrogate in three bytes). *)
Definition utf8_encode_cp (c : Z) : list Z :=
  if c <? 128 then [c]
  else if c <? 2048 then [192 + Z.shiftr c 6; 128 + Z.land c 63]
  else if c <? 65536 then
    [224 + Z.shiftr c 12; 128 + Z.land (Z.shiftr c 6) 63; 128 + Z.land c 63]
  else [240 + Z.shiftr c 18; 128 + Z.land (Z.shiftr c 12) 63;
        128 + Z.land (Z.shiftr c 6) 63; 128 + Z.land c 63].

(** A [unicode] value, as a Rocq string holding its UTF-8 encoding (for
    ASCII text, the same bytes as the [str]). *)
Definition utext (cps : list Z) : string :=
  bytes_to_string (flat_map utf8_encode_cp cps).

(** [bytes.decode('utf-8')]: the code points, or [UnicodeDecodeError]. *)
Definition decode_utf8_cps (bs : list Z) : result (list Z) :=
  match utf8_decode bs with
  | Some cps => Ok cps
  | None => Err UnicodeDecodeError
  end.

Definition decode_utf8 (bs : list Z) : result string :=
  cps <- decode_utf8_cps bs ;; Ok (utext cps).

(** [unicode.upper()]: each code point through the simple uppercase
    mapping of Python's Unicode database.  On ASCII that maps a..z to
    A..Z; on the other code points it is [uc], a parameter of the
    definitions that decode names: the database is part of the Python
    runtime, not of this program, and no statement below depends on it. *)
Definition upper_cp (uc : Z -> Z) (c : Z) : Z :=
  if c <? 128 then (if (97 <=? c) && (c <=? 122) then c - 32 else c) else uc c.

Definition uupper (uc : Z -> Z) (cps : list Z) : list Z := map (upper_cp uc) cps.

(** [Param.read(handle)] on the buffer following the offset field. *)
Definition param_read (name : string) (buf : list Z) : result param :=
  let '(b, buf) := buf_read 1 buf in
  bpe <- unpack_b b ;;
  let '(b, buf) := buf_read 1 buf in
  dims <- unpack_B b ;;
  let fix read_dims (n : nat) (buf : list Z) : result (list Z * list Z) :=
    match n with
    | O => Ok ([], buf)
    | S n' => let '(b, buf) := buf_read 1 buf in
              d <- unpack_B b ;;
              r <- read_dims n' buf ;;
              Ok (d :: fst r, snd r)
    end in
  r <- read_dims (Z.to_nat dims) buf ;;
  let '(dimensions, buf) := r in
  let p0 := mkParam name EmptyString bpe dimensions [] in
  let '(data, buf) := if total_bytes p0 =? 0 then ([], buf)
                      else buf_read (Z.to_nat (total_bytes p0)) buf in
  let '(b, buf) := buf_read 1 buf in
  size <- unpack_B b ;;
  desc <- (if size =? 0 then Ok EmptyString
           else let '(d, _) := buf_read (Z.to_nat size) buf in
                decode_utf8 d) ;;
  Ok (mkParam name desc bpe dimensions data).

(** A directory record after parsing: a parameter of group [gid], or the
    header of group [gid] (the absolute value of the stored negative id). *)
Inductive dir_record :=
| RParam (gid : Z) (p : param)
| RGroup (gid : Z) (name : string) (desc : string).

(** Python's [bytes[k:]]: a negative [k] counts from the end. *)
Definition py_slice_from (k : Z) (bs : list Z) : list Z :=
  if 0 <=? k then skipn (Z.to_nat k) bs
  else skipn (Z.to_nat (Z.of_nat (List.length bs) + k)) bs.

(** The name-length byte [L] and the offset field of the record at the
    head of [bs]. *)
Definition rec_name_len (bs : list Z) : Z := signed8 (nth 0 bs 0).

Definition rec_next_offset (bs : list Z) : Z :=
  let n := Z.to_nat (2 + Z.abs (rec_name_len bs)) in
  signed16 (uint16_le (nth n bs 0) (nth (S n) bs 0)).

(** One pass of the [while bytes:] loop up to the slicing of [bytes]:
    [None] is the [break] (a zero group id or name length), otherwise the
    parsed record and the new value of [bytes].  The name is
    [buf.read(...).decode('utf-8').upper()], a [unicode] object; a
    parameter record then goes through [add_param(name, handle=buf)],
    which builds [Param(name.upper(), handle=buf)].  [uc] is the non-ASCII
    part of [unicode.upper()] (see [upper_cp]). *)
Definition parse_record (uc : Z -> Z) (bs : list Z) : result (option (dir_record * list Z)) :=
  let buf := bs in
  let '(b, buf) := buf_read 2 buf in
  match b with
  | [b0; b1] =>
      let chars_in_name := signed8 b0 in
      let group_id := signed8 b1 in
      if (group_id =? 0) || (chars_in_name =? 0) then Ok None
      else
        let '(nb, buf) := buf_read (Z.to_nat (Z.abs chars_in_name)) buf in
        name <- decode_utf8_cps nb ;;
        let name := uupper uc name in
        let '(ob, buf) := buf_read 2 buf in
        offset_to_next <- unpack_h ob ;;
        rc <- (if 0 <? group_id then
                 p <- param_read (utext (uupper uc name)) buf ;; Ok (RParam group_id p)
               else
                 let '(sb, buf) := buf_read 1 buf in
                 size <- unpack_B sb ;;
                 let desc := if size =? 0 then EmptyString
                             else bytes_to_string (fst (buf_read (Z.to_nat size) buf)) in
                 Ok (RGroup (Z.abs group_id) (utext name) desc)) ;;
        Ok (Some (rc, py_slice_from (2 + Z.abs chars_in_name + offset_to_next) bs))
  | _ => Err StructError
  end.

(** The store effect of one record:
    {v
    if group_id > 0:
        self.groups.setdefault(group_id, Group()).add_param(name, handle=buf)
    else:
        group = self.get(group_id)
        if group is not None:
            group.name = name; group.desc = desc; self.groups[name] = group
        else:
            self.add_group(group_id, name, desc)
    v}
    The [Param] is parsed before it is attached; a parse failure aborts
    the whole constructor, so the order is not observable.  [add_param]
    and [add_group] upper-case the name once more; a record's name already
    is the result of [unicode.upper()], which the database's uppercase
    mapping leaves unchanged, so [group_add_param] and [add_group] (whose
    [upper] changes ASCII letters only, and finds none in lower case here)
    keep it as it is. *)
Definition setdefault_group (gid : Z) : st manager nat :=
  fun m =>
    match dict_get key_eqb (KId gid) (groups m) with
    | Some r => (Ok r, m)
    | None =>
        let r := List.length (arena m) in
        (Ok r, mkManager (mheader m) (arena m ++ [placeholder_group])
                         (dict_set key_eqb (KId gid) r (groups m)))
    end.

Definition apply_record (rc : dir_record) : st manager unit :=
  match rc with
  | RParam gid p =>
      r <-- setdefault_group gid ;;
      fun m => (Ok tt, set_arena m (update_nth r (fun g => group_add_param g p) (arena m)))
  | RGroup gid name desc =>
      fun m =>
        match dict_get key_eqb (KId gid) (groups m) with
        | Some r =>
            (Ok tt, mkManager (mheader m)
                      (update_nth r (fun g => mkGroup (Some name) (Some desc) (gparams g))
                                  (arena m))
                      (dict_set key_eqb (KName name) r (groups m)))
        | None => st_bind (add_group gid name desc) (fun _ => st_ret tt) m
        end
  end.

(** The [while bytes:] loop.  [fuel] bounds the number of passes; running
    out of it ([Ok false]) stands for a loop that does not terminate
    (a record whose [2 + |L| + next_offset] is 0 is read again forever). *)
Fixpoint read_dir (uc : Z -> Z) (fuel : nat) (bs : list Z) : st manager bool :=
  match fuel with
  | O => fun m => (Ok false, m)
  | S fuel' =>
      match bs with
      | [] => st_ret true
      | _ :: _ =>
          match parse_record uc bs with
          | Err e => st_raise e
          | Ok None => st_ret true
          | Ok (Some (rc, bs')) => _ <-- apply_record rc ;; read_dir uc fuel' bs'
          end
      end
  end.

(** Applying a sequence of records in order. *)
Fixpoint apply_records (rcs : list dir_record) : st manager unit :=
  match rcs with
  | [] => st_ret tt
  | rc :: rcs' => _ <-- apply_record rc ;; apply_records rcs'
  end.


(** The parameters of group [gid] among a sequence of records, in order,
    and whether the sequence holds the header record of [gid]. *)
Definition params_of (gid : Z) (rcs : list dir_record) : list param :=
  flat_map (fun rc => match rc with
                      | RParam g p => if g =? gid then [p] else []
                      | RGroup _ _ _ => []
                      end) rcs.

Definition has_header_of (gid : Z) (rcs : list dir_record) : bool :=
  existsb (fun rc => match rc with
                     | RGroup g _ _ => g =? gid
                     | RParam _ _ => false
                     end) rcs.

(** The shape of the dual index that [add_group] and [setdefault] build:
    every key points into the arena, and two numeric ids never share a
    group object. *)
Definition store_wf (m : manager) : Prop :=
  (forall k i, dict_get key_eqb k (groups m) = Some i -> (i < List.length (arena m))%nat) /\
  (forall g1 g2 i, dict_get key_eqb (KId g1) (groups m) = Some i ->
                   dict_get key_eqb (KId g2) (groups m) = Some i -> g1 = g2).


(** The change one record makes to the group object of id [gid]. *)
Definition rec_effect (gid : Z) (rc : dir_record) : group -> group :=
  match rc with
  | RParam g p => if g =? gid then fun x => group_add_param x p else fun x => x
  | RGroup _ _ _ => fun x => x
  end.


(** The [Param] object [Group.add_param] stores for a parsed parameter
    (its name upper-cased). *)
Definition norm_param (q : param) : param :=
  mkParam (upper (pname q)) (pdesc q) (bytes_per_element q) (dimensions q) (pbytes q).


(** ** Header and reader start-up *)

(** [struct.unpack('<f', ...)] of the little-endian bytes [b0..b3]: the
    binary32 value they encode, as a double. *)
Definition le32 (b0 b1 b2 b3 : Z) : Z := b0 + 256 * (b1 + 256 * (b2 + 256 * b3)).

Definition float_of_bits32 (b : Z) : float :=
  let s := Z.testbit b 31 in
  let e := Z.land (Z.shiftr b 23) 255 in
  let m := Z.land b (Z.ones 23) in
  FloatOps.SF2Prim
    (if e =? 255 then
       (if m =? 0 then SpecFloat.S754_infinity s else SpecFloat.S754_nan)
     else if e =? 0 then
       match m with
       | Zpos pm => SpecFloat.S754_finite s pm (-149)
       | _ => SpecFloat.S754_zero s
       end
     else
       match m + 2 ^ 23 with
       | Zpos pm => SpecFloat.S754_finite s pm (e - 150)
       | _ => SpecFloat.S754_zero s
       end).

Definition unpack_f (bs : list Z) : result float :=
  match bs with
  | [b0; b1; b2; b3] => Ok (float_of_bits32 (le32 b0 b1 b2 b3))
  | _ => Err StructError
  end.

(** An open binary file: its bytes, the current position, and the log of
    the [read] calls made on it (position of the read, size asked for). *)
Record handle := mkHandle {
  contents : list Z;
  hpos : nat;
  reads : list (nat * Z) }.

(** [handle.seek(p)] on a file opened with [open(path, 'rb')]: a negative
    position makes the [lseek] system call fail, which Python 2 reports as
    [IOError: [Errno 22] Invalid argument]. *)
Definition hseek (p : Z) (h : handle) : result handle :=
  if p <? 0 then Err (IOError "[Errno 22] Invalid argument") else Ok (mkHandle (contents h) (Z.to_nat p) (reads h)).

(** [handle.read(n)]: at most [n] bytes from the current position; a
    negative [n] reads everything that is left. *)
Definition hread (n : Z) (h : handle) : list Z * handle :=
  let rest := skipn (hpos h) (contents h) in
  let k := if n <? 0 then List.length rest else Z.to_nat n in
  let bs := firstn k rest in
  (bs, mkHandle (contents h) (hpos h + List.length bs) (reads h ++ [(hpos h, n)])).

(** [struct.unpack(Header.BINARY_FORMAT, ...)] with
    [BINARY_FORMAT = '<BBHHHHHfHHf270sHH214s']: the magic byte and the
    fields assigned to the header. *)
Definition unpack_header (bs : list Z) : result (Z * header) :=
  if negb (List.length bs =? 512)%nat then Err StructError else
  let B i := nth i bs 0 in
  let H i := uint16_le (B i) (B (S i)) in
  let F i := float_of_bits32 (le32 (B i) (B (i + 1)%nat) (B (i + 2)%nat) (B (i + 3)%nat)) in
  Ok (B 1%nat,
      mkHeader (B 0%nat) (H 2%nat) (H 4%nat) (H 6%nat) (H 8%nat) (H 10%nat) (F 12%nat)
               (H 16%nat) (H 18%nat) (F 20%nat) (H 294%nat) (H 296%nat)).

(** [Header.read]: seek to 0, read 512 bytes, assign the fields, then
    [assert magic == 80]. *)
Definition header_read : st (header * handle) unit :=
  fun '(hd, h) =>
    match hseek 0 h with
    | Err e => (Err e, (hd, h))
    | Ok h =>
        let '(bs, h) := hread 512 h in
        match unpack_header bs with
        | Err e => (Err e, (hd, h))
        | Ok (magic, hd') =>
            if magic =? 80 then (Ok tt, (hd', h))
            else (Err (AssertionError "C3D magic != 80 !" [float_of_Z magic]), (hd', h))
        end
    end.

(** [Manager.get('GROUP:PARAM')] for an upper-case constant key. *)
Definition get_param (m : manager) (gn pn : string) : option param :=
  match dict_get key_eqb (KName gn) (groups m) with
  | None => None
  | Some r =>
      match nth_error (arena m) r with
      | Some g => dict_get String.eqb pn (gparams g)
      | None => None
      end
  end.

(** [get_uint16] and [get_float]: [.uint16_value] / [.float_value] of the
    result of [get]; on a missing parameter that is an attribute access on
    [None]. A parameter whose bytes have the wrong length makes [struct]
    raise. *)
Definition get_uint16 (m : manager) (gn pn : string) : result Z :=
  match get_param m gn pn with
  | None => Err (AttributeError "'NoneType' object has no attribute 'uint16_value'")
  | Some p => unpack_H (pbytes p)
  end.

Definition get_float (m : manager) (gn pn : string) : result float :=
  match get_param m gn pn with
  | None => Err (AttributeError "'NoneType' object has no attribute 'float_value'")
  | Some p => unpack_f (pbytes p)
  end.

Definition frame_rate_param (m : manager) : result float := get_float m "POINT" "RATE".
Definition scale_factor_param (m : manager) : result float := get_float m "POINT" "SCALE".
Definition points_per_frame (m : manager) : result Z := get_uint16 m "POINT" "USED".

(** [analog_per_frame] and [analog_frame_rate] catch [AttributeError] and
    return 0. (The int 0 of [analog_frame_rate] is written as the float 0:
    it only enters the product [analog_per_frame() * analog_frame_rate()],
    whose value is 0 either way.) *)
Definition analog_per_frame (m : manager) : result Z :=
  match get_uint16 m "ANALOG" "USED" with
  | Err (AttributeError _) => Ok 0
  | r => r
  end.

Definition analog_frame_rate (m : manager) : result float :=
  match get_float m "ANALOG" "RATE" with
  | Err (AttributeError _) => Ok 0%float
  | r => r
  end.

(** Python's [x / y] on floats. *)
Definition float_div (x y : float) : result float :=
  if PrimFloat.eqb y 0%float then Err ZeroDivisionError else Ok (x / y)%float.

Definition assert_ (c : bool) (what : string) (vals : list float) : result unit :=
  if c then Ok tt else Err (AssertionError what vals).

(** The end of [check_metadata]: the data-block check and the warnings
    for missing parameters (returned as the list of warning texts). *)
Definition check_metadata_tail (m : manager) : result (list string) :=
  let hd := mheader m in
  start <- get_uint16 m "POINT" "DATA_START" ;;
  _ <- assert_ (data_block hd =? start) "inconsistent data block!"
                [float_of_Z (data_block hd); float_of_Z start] ;;
  Ok (flat_map (fun '(gn, pn) =>
                  match get_param m gn pn with
                  | None => [String.append "missing parameter " (String.append gn (String.append ":" pn))]
                  | Some _ => []
                  end)
               [("POINT", "LABELS"); ("POINT", "DESCRIPTIONS"); ("ANALOG", "USED");
                ("ANALOG", "LABELS"); ("ANALOG", "DESCRIPTIONS")]).

(** [Manager.check_metadata]. *)
Definition check_metadata (m : manager) : result (list string) :=
  let hd := mheader m in
  ppf <- points_per_frame m ;;
  _ <- assert_ (point_count hd =? ppf) "inconsistent point count!"
                [float_of_Z (point_count hd); float_of_Z ppf] ;;
  sf <- scale_factor_param m ;;
  _ <- assert_ (PrimFloat.eqb (scale_factor hd) sf) "inconsistent scale factor!"
                [scale_factor hd; sf] ;;
  fr <- frame_rate_param m ;;
  _ <- assert_ (PrimFloat.eqb (frame_rate hd) fr) "inconsistent frame rate!"
                [frame_rate hd; fr] ;;
  apf_n <- analog_per_frame m ;;
  afr <- analog_frame_rate m ;;
  fr' <- frame_rate_param m ;;
  apf <- float_div (float_of_Z apf_n * afr)%float fr' ;;
  _ <- assert_ (PrimFloat.eqb (float_of_Z (analog_count hd)) apf) "inconsistent analog count!"
                [float_of_Z (analog_count hd); float_of_Z apf_n; afr; fr'] ;;
  check_metadata_tail m.

(** [Reader.__init__]: [Header(handle)], then the parameter section.
    [None] when the directory loop runs out of [fuel]. *)
Definition reader_init (uc : Z -> Z) (fuel : nat) (h : handle) : option (result manager * handle) :=
  match header_read (default_header, h) with
  | (Err e, (_, h1)) => Some (Err e, h1)
  | (Ok _, (hd, h1)) =>
      let m := mkManager hd [] [] in
      match hseek ((parameter_block hd - 1) * 512) h1 with
      | Err e => Some (Err e, h1)
      | Ok h2 =>
          let '(buf, h3) := hread 4 h2 in
          match buf with
          | [_; _; pblocks; processor] =>
              if negb (processor =? 84) then
                Some (Err (ValueError "we only read Intel C3D files"), h3) else
              let '(bs, h4) := hread (512 * pblocks - 4) h3 in
              match read_dir uc fuel bs m with
              | (Err e, _) => Some (Err e, h4)
              | (Ok false, _) => None
              | (Ok true, m') =>
                  match check_metadata m' with
                  | Err e => Some (Err e, h4)
                  | Ok _ => Some (Ok m', h4)
                  end
              end
          | _ => Some (Err StructError, h3)
          end
      end
  end.


(** ** Example metadata *)

(** A POINT group (USED 1, SCALE -1.0, RATE 49.0, DATA_START 3) and an
    ANALOG group (USED 49, RATE 1.0), indexed by id and by name, under a
    given header. Floats are stored as their little-endian binary32 bytes. *)
Definition example_point_group : group :=
  mkGroup (Some "POINT") (Some EmptyString)
    [("USED", mkParam "USED" EmptyString 2 [] [1; 0]);
     ("SCALE", mkParam "SCALE" EmptyString 4 [] [0; 0; 128; 191]);
     ("RATE", mkParam "RATE" EmptyString 4 [] [0; 0; 68; 66]);
     ("DATA_START", mkParam "DATA_START" EmptyString 2 [] [3; 0])].

Definition example_analog_group : group :=
  mkGroup (Some "ANALOG") (Some EmptyString)
    [("USED", mkParam "USED" EmptyString 2 [] [49; 0]);
     ("RATE", mkParam "RATE" EmptyString 4 [] [0; 0; 128; 63])].

Definition example_manager (hd : header) : manager :=
  mkManager hd [example_point_group; example_analog_group]
    [(KId 1, 0%nat); (KName "POINT", 0%nat); (KId 2, 1%nat); (KName "ANALOG", 1%nat)].


(** ** Keyword arguments of [Group.add_param] *)

(** [Group.add_param(name, **kwargs)] passes [kwargs] on to
    [Param(name.upper(), **kwargs)], whose [__init__] takes the keywords
    [desc], [bytes_per_element], [dimensions], [bytes] and [handle]; any
    other keyword raises [TypeError]. *)
Definition param_init_keywords : list string :=
  ["desc"; "bytes_per_element"; "dimensions"; "bytes"; "handle"].

Definition param_init_kwargs (kws : list string) : result unit :=
  match find (fun k => negb (existsb (String.eqb k) param_init_keywords)) kws with
  | Some k => Err (TypeError (String.append "__init__() got an unexpected keyword argument " k))
  | None => Ok tt
  end.


(** ** [struct.pack] of integers *)

(** The [n] little-endian bytes of [v] (two's complement for a negative
    [v], through the floor [mod]). *)
Fixpoint le_bytes (n : nat) (v : Z) : list Z :=
  match n with
  | O => []
  | S n' => v mod 256 :: le_bytes n' (v / 256)
  end.

(** [struct.pack('<x', v)] for an integer format of [n] bytes and range
    [lo .. hi]: [struct.error] outside the range. *)
Definition pack_int (n : nat) (lo hi v : Z) : result (list Z) :=
  if (lo <=? v) && (v <=? hi) then Ok (le_bytes n v) else Err StructError.

Definition pack_b (v : Z) : result (list Z) := pack_int 1 (-128) 127 v.
Definition pack_B (v : Z) : result (list Z) := pack_int 1 0 255 v.
Definition pack_h (v : Z) : result (list Z) := pack_int 2 (-32768) 32767 v.
Definition pack_H (v : Z) : result (list Z) := pack_int 2 0 65535 v.
Definition pack_i (v : Z) : result (list Z) := pack_int 4 (-2147483648) 2147483647 v.
Definition pack_I (v : Z) : result (list Z) := pack_int 4 0 4294967295 v.

(** [struct.pack('bb', a, b)] and [struct.pack('B' * len(vs), *vs)]: the
    whole string is built before anything is written. *)
Definition pack_bb (a b : Z) : result (list Z) :=
  x <- pack_b a ;; y <- pack_b b ;; Ok (x ++ y).

Fixpoint pack_Bs (vs : list Z) : result (list Z) :=
  match vs with
  | [] => Ok []
  | v :: vs' => x <- pack_B v ;; r <- pack_Bs vs' ;; Ok (x ++ r)
  end.

(** [struct.unpack('<i', ...)] and [struct.unpack('<I', ...)]. *)
Definition uint32_le (b0 b1 b2 b3 : Z) : Z := le32 b0 b1 b2 b3.
Definition signed32 (u : Z) : Z := if u <? 2147483648 then u else u - 4294967296.

Definition unpack_I (bs : list Z) : result Z :=
  match bs with [b0; b1; b2; b3] => Ok (uint32_le b0 b1 b2 b3) | _ => Err StructError end.
Definition unpack_i (bs : list Z) : result Z :=
  match bs with [b0; b1; b2; b3] => Ok (signed32 (uint32_le b0 b1 b2 b3)) | _ => Err StructError end.

(** ** Writing the directory ([Param.write], [Group.write]) *)

(** A binary handle being written: the bytes written so far. Each
    [handle.write] appends; an exception leaves what was written. *)
Definition emit (bs : list Z) : st (list Z) unit := fun out => (Ok tt, out ++ bs).

Definition emit_r (r : result (list Z)) : st (list Z) unit :=
  match r with
  | Ok bs => emit bs
  | Err e => st_raise e
  end.

(** A byte string: one byte per character ([str.encode('utf-8')] on
    ASCII text). *)
Definition str_bytes (s : string) : list Z :=
  map (fun c => Z.of_nat (nat_of_ascii c)) (list_ascii_of_string s).

(** [Param.write(group_id, handle)]. [if self.bytes:] skips the write of
    an empty data string, which writes nothing either way. *)
Definition param_write (group_id : Z) (p : param) : st (list Z) unit :=
  let name := str_bytes (pname p) in
  _ <-- emit_r (pack_bb (Z.of_nat (List.length name)) group_id) ;;
  _ <-- emit name ;;
  _ <-- emit_r (pack_h (param_binary_size p - 2 - Z.of_nat (List.length name))) ;;
  _ <-- emit_r (pack_b (bytes_per_element p)) ;;
  _ <-- emit_r (pack_B (Z.of_nat (List.length (dimensions p)))) ;;
  _ <-- emit_r (pack_Bs (dimensions p)) ;;
  _ <-- (match pbytes p with [] => st_ret tt | _ => emit (pbytes p) end) ;;
  let desc := str_bytes (pdesc p) in
  _ <-- emit_r (pack_B (Z.of_nat (List.length desc))) ;;
  emit desc.

(** The [for param in self.params.values()] loop of [Group.write]. *)
Fixpoint params_write (group_id : Z) (ps : list (string * param)) : st (list Z) unit :=
  match ps with
  | [] => st_ret tt
  | (_, p) :: ps' => _ <-- param_write group_id p ;; params_write group_id ps'
  end.

(** [Group.write(group_id, handle)]; the name and description are byte
    strings written as they are. [len(None)] raises [TypeError] for a
    placeholder group. *)
Definition group_write (group_id : Z) (g : group) : st (list Z) unit :=
  match gname g with
  | None => st_raise (TypeError "object of type 'NoneType' has no len()")
  | Some n =>
      _ <-- emit_r (pack_bb (Z.of_nat (String.length n)) (- group_id)) ;;
      _ <-- emit (str_bytes n) ;;
      match gdesc g with
      | None => st_raise (TypeError "object of type 'NoneType' has no len()")
      | Some d =>
          _ <-- emit_r (pack_h (3 + Z.of_nat (String.length d))) ;;
          _ <-- emit_r (pack_B (Z.of_nat (String.length d))) ;;
          _ <-- emit (str_bytes d) ;;
          params_write group_id (gparams g)
      end
  end.

(** The preconditions of a [Param] under which every [struct.pack] of
    [Param.write] succeeds and [Param.read] reads the record back: a name
    of 1 to 127 ASCII characters, an ASCII description of at most 255
    characters, a [bytes_per_element] that fits a signed byte, at most 255
    dimensions that each fit an unsigned byte, a data string of exactly
    [total_bytes] bytes, and a next-record offset that fits a signed 16-bit
    field. *)
Definition param_writable (p : param) : Prop :=
  (1 <= String.length (pname p) <= 127)%nat /\
  forallb (fun b => (0 <=? b) && (b <? 128)) (str_bytes (pname p)) = true /\
  forallb (fun b => (0 <=? b) && (b <? 128)) (str_bytes (pdesc p)) = true /\
  (String.length (pdesc p) <= 255)%nat /\
  -128 <= bytes_per_element p <= 127 /\
  Forall (fun d => 0 <= d <= 255) (dimensions p) /\
  (List.length (dimensions p) <= 255)%nat /\
  List.length (pbytes p) = Z.to_nat (total_bytes p) /\
  param_binary_size p - 2 - Z.of_nat (String.length (pname p)) <= 32767.


(** ** Looking parameters up ([Manager.get], [Group.get_*], [Param._as]) *)

(** ['c' in s] followed by [s.split('c', 1)]: [None] when the separator
    does not occur, otherwise the text before its first occurrence and
    the text after it. *)
Fixpoint split_once (sep : ascii) (s : string) : option (string * string) :=
  match s with
  | EmptyString => None
  | String c s' =>
      if Ascii.eqb c sep then Some (EmptyString, s')
      else match split_once sep s' with
           | Some (a, b) => Some (String c a, b)
           | None => None
           end
  end.

(** What [Manager.get] returns when it finds something. *)
Inductive got :=
| GotGroup (g : group)
| GotParam (p : param).

(** [Manager.get(group)] with the default [None]:
    {v
    if isinstance(group, int):
        return self.groups.get(group, default)
    group = group.upper()
    param = None
    if '.' in group:
        group, param = group.split('.', 1)
    if ':' in group:
        group, param = group.split(':', 1)
    if group not in self.groups:
        return default
    group = self.groups[group]
    if param is not None:
        return group.get(param, default)
    return group
    v} *)
Definition manager_get (m : manager) (k : key) : option got :=
  match k with
  | KId i =>
      match dict_get key_eqb (KId i) (groups m) with
      | Some r => option_map GotGroup (nth_error (arena m) r)
      | None => None
      end
  | KName s =>
      let s := upper s in
      let '(gn, pn) := match split_once "." s with
                       | Some (a, b) => (a, Some b)
                       | None => (s, None)
                       end in
      let '(gn, pn) := match split_once ":" gn with
                       | Some (a, b) => (a, Some b)
                       | None => (gn, pn)
                       end in
      match dict_get key_eqb (KName gn) (groups m) with
      | None => None
      | Some r =>
          match nth_error (arena m) r with
          | None => None
          | Some g =>
              match pn with
              | Some pn => option_map GotParam (dict_get String.eqb pn (gparams g))
              | None => Some (GotGroup g)
              end
          end
      end
  end.

(** The [struct] formats of the scalar accessors of [Param]
    ([int8_value] ... [float_value]) and the values they give. *)
Inductive fmt := Fb | FB | Fh | FH | Fi | FI | Ff.

Inductive pyval :=
| VInt (z : Z)
| VFloat (f : float).

Definition fmt_attr (f : fmt) : string :=
  match f with
  | Fb => "int8_value" | FB => "uint8_value" | Fh => "int16_value"
  | FH => "uint16_value" | Fi => "int32_value" | FI => "uint32_value"
  | Ff => "float_value"
  end.

(** [Param._as(fmt)]: [struct.unpack('<' + fmt, self.bytes)[0]], which
    raises unless [bytes] has exactly the size of the format. *)
Definition param_as (f : fmt) (p : param) : result pyval :=
  let bs := pbytes p in
  match f with
  | Fb => z <- unpack_b bs ;; Ok (VInt z)
  | FB => z <- unpack_B bs ;; Ok (VInt z)
  | Fh => z <- unpack_h bs ;; Ok (VInt z)
  | FH => z <- unpack_H bs ;; Ok (VInt z)
  | Fi => z <- unpack_i bs ;; Ok (VInt z)
  | FI => z <- unpack_I bs ;; Ok (VInt z)
  | Ff => x <- unpack_f bs ;; Ok (VFloat x)
  end.

(** [Group.get_int8(key)] ... [Group.get_float(key)]:
    [self.params[key.upper()].<fmt>_value]; a missing key raises
    [KeyError]. *)
Definition group_get_as (f : fmt) (g : group) (k : string) : result pyval :=
  match dict_get String.eqb (upper k) (gparams g) with
  | None => Err (KeyError_name (upper k))
  | Some p => param_as f p
  end.

(** [Manager.get_int8(key)] ... [Manager.get_float(key)]:
    [self.get(key).<fmt>_value]; [None] and a [Group] have no such
    attribute. *)
Definition manager_get_as (f : fmt) (m : manager) (k : string) : result pyval :=
  match manager_get m (KName k) with
  | None =>
      Err (AttributeError (String.append "'NoneType' object has no attribute '"
                                         (String.append (fmt_attr f) "'")))
  | Some (GotGroup _) =>
      Err (AttributeError (String.append "'Group' object has no attribute '"
                                         (String.append (fmt_attr f) "'")))
  | Some (GotParam p) => param_as f p
  end.

(** Python's [bytes[a:b]] for a step of 1: negative indices count from
    the end, and both ends are clamped to the string. *)
Definition py_index (k : Z) (len : Z) : Z :=
  if k <? 0 then Z.max 0 (len + k) else Z.min k len.

Definition py_slice (a b : Z) (bs : list Z) : list Z :=
  let len := Z.of_nat (List.length bs) in
  let a' := py_index a len in
  let b' := py_index b len in
  firstn (Z.to_nat (b' - a')) (skipn (Z.to_nat a') bs).

(** [Param.bytes_array]:
    {v
    assert len(self.dimensions) == 2, ...
    l, n = self.dimensions
    return [self.bytes[i*l:(i+1)*l] for i in range(n)]
    v} *)
Definition bytes_array (p : param) : result (list (list Z)) :=
  match dimensions p with
  | [l; n] =>
      Ok (map (fun i => py_slice (i * l) ((i + 1) * l) (pbytes p))
              (map Z.of_nat (seq 0 (Z.to_nat n))))
  | _ => Err (AssertionError (String.append (pname p) ": cannot get value as bytes array!") [])
  end.

(** [Param.string_array]: the same slices, each decoded from UTF-8 (the
    first undecodable slice raises). *)
Fixpoint decode_all (bss : list (list Z)) : result (list string) :=
  match bss with
  | [] => Ok []
  | bs :: bss' => s <- decode_utf8 bs ;; ss <- decode_all bss' ;; Ok (s :: ss)
  end.

Definition string_array (p : param) : result (list string) :=
  match dimensions p with
  | [l; n] =>
      decode_all (map (fun i => py_slice (i * l) ((i + 1) * l) (pbytes p))
                      (map Z.of_nat (seq 0 (Z.to_nat n))))
  | _ => Err (AssertionError (String.append (pname p) ": cannot get value as string array!") [])
  end.

(** [Manager.point_labels()]: [self.get('POINT:LABELS').string_array];
    a missing parameter is an attribute access on [None]. *)
Definition point_labels (m : manager) : result (list string) :=
  match manager_get m (KName "POINT:LABELS") with
  | Some (GotParam p) => string_array p
  | Some (GotGroup _) => Err (AttributeError "'Group' object has no attribute 'string_array'")
  | None => Err (AttributeError "'NoneType' object has no attribute 'string_array'")
  end.


(** A complete parameter section behind a valid header: the header
    (parameter block 2, magic 80, one point, scale -1.0 at offset 12,
    data block 3, frame rate 49.0 at offset 20), then at byte 512 the
    parameter-section header [0, 0, 1 block, processor 84] and the bytes
    [Group.write] produces for [example_point_group] as group 1, then
    zeros. *)
Definition example_header_bytes : list Z :=
  [2; 80; 1; 0; 0; 0; 0; 0; 0; 0; 0; 0; 0; 0; 128; 191; 3; 0; 0; 0; 0; 0; 68; 66] ++ repeat 0 488.

Definition example_c3d_file : list Z :=
  example_header_bytes ++ [0; 0; 1; 84] ++ snd (group_write 1 example_point_group []) ++ repeat 0 64.


(* ===================================================================== *)
(** * Properties *)
(* ===================================================================== *)

(** ** Decoding of the 4th point value *)

Lemma shiftr_land_pow2 (c k : Z) :
  0 <= k -> Z.shiftr (Z.land c (Z.shiftl 1 k)) k = Z.b2z (Z.testbit c k).
Proof.
  intros Hk.
  rewrite Z.shiftr_land, Z.shiftr_shiftl_l by lia.
  rewrite Z.sub_diag, Z.shiftl_0_r.
  rewrite (Z.land_ones _ 1) by lia.
  rewrite Z.pow_1_r, Zmod_odd, <- Z.testbit_odd.
  destruct (Z.testbit c k); reflexivity.
Qed.

Lemma camera_bits_testbits (c : Z) :
  camera_bits c =
  Z.b2z (Z.testbit c 8) + Z.b2z (Z.testbit c 9) + Z.b2z (Z.testbit c 10)
  + Z.b2z (Z.testbit c 11) + Z.b2z (Z.testbit c 12) + Z.b2z (Z.testbit c 13)
  + Z.b2z (Z.testbit c 14) + Z.b2z (Z.testbit c 15) + Z.b2z (Z.testbit c 16).
Proof.
  assert (Hfold : forall l acc, Forall (fun k => 0 <= k) l ->
    fold_left (fun acc k => acc + Z.shiftr (Z.land c (Z.shiftl 1 k)) k) l acc =
    fold_left (fun acc k => acc + Z.b2z (Z.testbit c k)) l acc).
  { induction l as [|k l IH]; intros acc Hl; simpl; [reflexivity|].
    inversion Hl; subst. rewrite shiftr_land_pow2 by assumption. apply IH; assumption. }
  unfold camera_bits. rewrite Hfold.
  - reflexivity.
  - repeat constructor; lia.
Qed.

Lemma b2z_bounds (b : bool) : 0 <= Z.b2z b <= 1.
Proof. destruct b; simpl; lia. Qed.

Lemma testbit_16_uint16 (c : Z) : 0 <= c < 65536 -> Z.testbit c 16 = false.
Proof.
  intros Hc. rewrite Z.testbit_odd, Z.shiftr_div_pow2 by lia.
  rewrite Z.div_small by (change (2 ^ 16) with 65536; lia). reflexivity.
Qed.

Lemma camera_bits_range (c : Z) :
  0 <= c < 65536 -> 0 <= camera_bits c <= 8.
Proof.
  intros Hc. rewrite camera_bits_testbits, testbit_16_uint16 by exact Hc.
  change (Z.b2z false) with 0.
  pose proof (b2z_bounds (Z.testbit c 8)); pose proof (b2z_bounds (Z.testbit c 9));
  pose proof (b2z_bounds (Z.testbit c 10)); pose proof (b2z_bounds (Z.testbit c 11));
  pose proof (b2z_bounds (Z.testbit c 12)); pose proof (b2z_bounds (Z.testbit c 13));
  pose proof (b2z_bounds (Z.testbit c 14)); pose proof (b2z_bounds (Z.testbit c 15)).
  lia.
Qed.

Lemma cell_uint16_range (r : cell) : 0 <= cell_uint16 r < 65536.
Proof.
  destruct r; simpl; unfold i_astype_uint16, f_astype_uint16;
    apply Z.mod_pos_bound; lia.
Qed.

Lemma float_of_Z_le_8 (n : Z) :
  0 <= n <= 8 -> PrimFloat.leb (float_of_Z n) 8 = true.
Proof.
  intros Hn.
  assert (n = 0 \/ n = 1 \/ n = 2 \/ n = 3 \/ n = 4 \/ n = 5 \/ n = 6 \/ n = 7 \/ n = 8)
    as Hc by lia.
  repeat destruct Hc as [Hc|Hc]; subst n; vm_compute; reflexivity.
Qed.

(** C2 (as stated: the sentinel test is [c = 65535]) fails: the stored
    integer -2 (unsigned 65534, not the sentinel) is decoded as an invalid
    point, not as residual 254 x |scale| and camera-count 8. *)
Lemma C2_sentinel_counterexample :
  let p := decode_point 2%float (CInt 10) (CInt 20) (CInt 30) (CInt (-2)) in
  cell_uint16 (CInt (-2)) <> 65535 /\
  perr p = PrimFloat.opp 1%float /\ pcam p = PrimFloat.opp 1%float /\
  PrimFloat.eqb (perr p)
    (PrimFloat.mul (float_of_Z (Z.land (cell_uint16 (CInt (-2))) 255))
                   (PrimFloat.abs 2%float)) = false /\
  PrimFloat.eqb (pcam p) (float_of_Z (camera_bits (cell_uint16 (CInt (-2))))) = false.
Proof. vm_compute. repeat split; try reflexivity; discriminate. Qed.

(** C2 (amended): the decoder marks a point invalid (residual-error and
    camera-count both -1) exactly when its 4th raw value is not greater
    than -1; for integer storage these are all the negative stored values
    (the stored -1, unsigned 65535, is one of them).  Otherwise, with [c]
    the 4th value converted to unsigned 16 bits (for integer storage,
    [c] is the stored value itself), the residual-error is
    [(c & 0xFF) * |scale_factor|] and the camera-count is the number of
    set bits among positions 8 to 16 of [c]. *)
Theorem C2_point_flag_decoding (sf : float) (r0 r1 r2 r3 : cell) :
  let p := decode_point sf r0 r1 r2 r3 in
  let c := cell_uint16 r3 in
  (cell_valid r3 = false ->
     perr p = PrimFloat.opp 1%float /\ pcam p = PrimFloat.opp 1%float) /\
  (cell_valid r3 = true ->
     perr p = PrimFloat.mul (float_of_Z (Z.land c 255)) (PrimFloat.abs sf) /\
     pcam p = float_of_Z (camera_bits c)) /\
  (forall z, r3 = CInt z -> -32768 <= z < 32768 ->
     (cell_valid r3 = true <-> 0 <= z) /\ (0 <= z -> c = z) /\
     (c = 65535 <-> z = -1)).
Proof.
  intros p c. unfold p, decode_point.
  split; [intros Hv; rewrite Hv; split; reflexivity|].
  split; [intros Hv; rewrite Hv; split; reflexivity|].
  intros z -> Hz. unfold c; simpl; unfold i_astype_uint16.
  split; [rewrite Z.ltb_lt; lia|]. split.
  - intros Hz0. apply Z.mod_small; lia.
  - split.
    + intros Hm. destruct (Z_lt_le_dec z 0).
      * rewrite <- (Z.mod_add z 1 65536) in Hm by lia.
        rewrite Z.mod_small in Hm by lia. lia.
      * rewrite Z.mod_small in Hm by lia. lia.
    + intros ->. reflexivity.
Qed.

(** C10: for every point the decoder reports as valid, bit 16 of the
    unsigned 16-bit 4th value is clear, so the camera-count it reports is
    at most 8. *)
Theorem C10_camera_count_at_most_8 (sf : float) (r0 r1 r2 r3 : cell) :
  cell_valid r3 = true ->
  Z.testbit (cell_uint16 r3) 16 = false /\
  0 <= camera_bits (cell_uint16 r3) <= 8 /\
  PrimFloat.leb (pcam (decode_point sf r0 r1 r2 r3)) 8 = true.
Proof.
  intros Hv. pose proof (cell_uint16_range r3) as Hr.
  split; [apply testbit_16_uint16; exact Hr|].
  split; [apply camera_bits_range; exact Hr|].
  unfold decode_point; rewrite Hv; simpl pcam.
  apply float_of_Z_le_8, camera_bits_range, Hr.
Qed.

Lemma C10_camera_count_at_most_8_witness :
  cell_valid (CInt 32767) = true /\
  PrimFloat.leb (pcam (decode_point 2%float (CInt 0) (CInt 0) (CInt 0) (CInt 32767))) 8 = true.
Proof.
  split; [reflexivity|].
  apply (C10_camera_count_at_most_8 2%float (CInt 0) (CInt 0) (CInt 0) (CInt 32767)).
  reflexivity.
Defined.

(** ** Dictionaries *)

Section DictLemmas.
Context {K V : Type} (keqb : K -> K -> bool).
Hypothesis keqb_spec : forall a b, keqb a b = true <-> a = b.

Lemma keqb_refl (k : K) : keqb k k = true.
Proof. apply keqb_spec; reflexivity. Qed.

Lemma keqb_false (a b : K) : a <> b -> keqb a b = false.
Proof.
  intros Hne. destruct (keqb a b) eqn:E; [|reflexivity].
  apply keqb_spec in E. contradiction.
Qed.

Lemma dict_get_replace (k k' : K) (v : V) (d : list (K * V)) :
  dict_get keqb k (dict_replace keqb k' v d) =
  if keqb k k' then (if dict_mem keqb k' d then Some v else None)
  else dict_get keqb k d.
Proof.
  unfold dict_mem. induction d as [|[k0 v0] d IH]; simpl.
  - destruct (keqb k k'); reflexivity.
  - destruct (keqb k' k0) eqn:E1; simpl.
    + apply keqb_spec in E1; subst k0.
      destruct (keqb k k') eqn:E2; reflexivity.
    + destruct (keqb k k0) eqn:E2.
      * apply keqb_spec in E2; subst k0.
        destruct (keqb k k') eqn:E3; [|reflexivity].
        apply keqb_spec in E3; subst k'. rewrite keqb_refl in E1. discriminate.
      * exact IH.
Qed.

Lemma dict_get_app (k : K) (d e : list (K * V)) :
  dict_get keqb k (d ++ e) =
  match dict_get keqb k d with Some v => Some v | None => dict_get keqb k e end.
Proof.
  induction d as [|[k0 v0] d IH]; simpl; [reflexivity|].
  destruct (keqb k k0); [reflexivity|exact IH].
Qed.

Lemma dict_get_set (k k' : K) (v : V) (d : list (K * V)) :
  dict_get keqb k (dict_set keqb k' v d) =
  if keqb k k' then Some v else dict_get keqb k d.
Proof.
  unfold dict_set. destruct (dict_mem keqb k' d) eqn:Em.
  - rewrite dict_get_replace, Em. reflexivity.
  - rewrite dict_get_app. simpl.
    destruct (keqb k k') eqn:E.
    + apply keqb_spec in E; subst k'.
      unfold dict_mem in Em. destruct (dict_get keqb k d); [discriminate|reflexivity].
    + destruct (dict_get keqb k d); reflexivity.
Qed.
End DictLemmas.

Lemma key_eqb_spec (a b : key) : key_eqb a b = true <-> a = b.
Proof.
  destruct a as [x|x], b as [y|y]; simpl; split; intros H; try discriminate.
  - apply Z.eqb_eq in H; subst; reflexivity.
  - inversion H; subst; apply Z.eqb_refl.
  - apply String.eqb_eq in H; subst; reflexivity.
  - inversion H; subst; apply String.eqb_refl.
Qed.

Lemma string_eqb_spec (a b : string) : String.eqb a b = true <-> a = b.
Proof. apply String.eqb_eq. Qed.

(** ** Adding a group *)

(** C9: [add_group(group_id, name, desc)] raises a [KeyError] when the id
    or the upper-cased name is already a key, leaving the store as it was;
    otherwise it adds exactly one new group object, named with the
    upper-cased name, reachable under both keys, and no other key
    changes. *)
Theorem C9_add_group_spec (m : manager) (gid : Z) (name desc : string) :
  let '(res, m') := add_group gid name desc m in
  ((dict_mem key_eqb (KId gid) (groups m) = true \/
    dict_mem key_eqb (KName (upper name)) (groups m) = true) ->
     (res = Err (KeyError_id gid) \/ res = Err (KeyError_name (upper name))) /\
     m' = m) /\
  (dict_mem key_eqb (KId gid) (groups m) = false ->
   dict_mem key_eqb (KName (upper name)) (groups m) = false ->
     res = Ok (List.length (arena m)) /\
     mheader m' = mheader m /\
     arena m' = arena m ++ [mkGroup (Some (upper name)) (Some desc) []] /\
     dict_get key_eqb (KId gid) (groups m') = Some (List.length (arena m)) /\
     dict_get key_eqb (KName (upper name)) (groups m') = Some (List.length (arena m)) /\
     (forall k, k <> KId gid -> k <> KName (upper name) ->
        dict_get key_eqb k (groups m') = dict_get key_eqb k (groups m))).
Proof.
  unfold add_group.
  destruct (dict_mem key_eqb (KId gid) (groups m)) eqn:Hid.
  { split; [intros _; split; [left|]; reflexivity|intros H; discriminate]. }
  destruct (dict_mem key_eqb (KName (upper name)) (groups m)) eqn:Hnm.
  { split; [intros _; split; [right|]; reflexivity|intros _ H; discriminate]. }
  split; [intros [H|H]; discriminate|].
  intros _ _. cbv beta iota zeta.
  split; [reflexivity|]. split; [reflexivity|]. split; [reflexivity|].
  cbn [groups].
  rewrite !(dict_get_set key_eqb key_eqb_spec).
  split; [rewrite (keqb_refl key_eqb key_eqb_spec); reflexivity|].
  split.
  - rewrite (keqb_false key_eqb key_eqb_spec) by discriminate.
    rewrite (keqb_refl key_eqb key_eqb_spec). reflexivity.
  - intros k H1 H2.
    rewrite !(dict_get_set key_eqb key_eqb_spec).
    rewrite (keqb_false key_eqb key_eqb_spec) by exact H1.
    rewrite (keqb_false key_eqb key_eqb_spec) by exact H2. reflexivity.
Qed.

Lemma C9_add_group_spec_witness :
  dict_mem key_eqb (KId 1) (groups (mkManager default_header [] [])) = false /\
  dict_mem key_eqb (KName (upper "point")) (groups (mkManager default_header [] [])) = false /\
  dict_get key_eqb (KName "POINT")
    (groups (snd (add_group 1 "point" "POINT group" (mkManager default_header [] []))))
  = Some O.
Proof.
  pose proof (C9_add_group_spec (mkManager default_header [] []) 1 "point" "POINT group")
    as H.
  destruct (add_group 1 "point" "POINT group" (mkManager default_header [] [])) as [res m'] eqn:E.
  destruct H as [_ H].
  split; [reflexivity|]. split; [reflexivity|].
  destruct (H eq_refl eq_refl) as (_ & _ & _ & _ & Hn & _).
  exact Hn.
Defined.

(** ** Size of the parameter section *)

(** C5 fails: [parameter_blocks] sums [binary_size()] over the values of
    [self.groups], where every group added by [add_group] appears twice
    (under its id and under its name).  A store with one group POINT of
    269 bytes needs one block (4 + 269 <= 512), yet [parameter_blocks]
    returns 2. *)
Lemma C5_parameter_blocks_counts_groups_twice :
  let m := snd (add_group 1 "POINT" EmptyString (mkManager default_header [] [])) in
  let m := set_arena m (update_nth 0
             (fun g => group_add_param g (mkParam "X" EmptyString 1 [250] (repeat 0 250)))
             (arena m)) in
  List.length (arena m) = 1%nat /\
  (exists g, arena m = [g] /\ group_binary_size g = Ok 269) /\
  4 + 269 <= 512 * 1 /\
  parameter_blocks m = Ok 2.
Proof.
  vm_compute. split; [reflexivity|]. split; [eexists; split; reflexivity|].
  split; [discriminate|reflexivity].
Qed.

(** ** Navigation in the parameter directory *)

Lemma firstn2_nth (l : list Z) (x y : Z) :
  firstn 2 l = [x; y] -> x = nth 0 l 0 /\ y = nth 1 l 0.
Proof.
  destruct l as [|a [|b l]]; simpl; intros H; try discriminate.
  inversion H; subst; split; reflexivity.
Qed.

Lemma nth_skipn_Z (n i : nat) (l : list Z) :
  nth i (skipn n l) 0 = nth (n + i) l 0.
Proof.
  revert l; induction n as [|n IH]; intros l; [reflexivity|].
  destruct l as [|a l]; simpl; [destruct i; reflexivity|apply IH].
Qed.

Lemma bind_ok {A B} (m : result A) (f : A -> result B) (b : B) :
  bind m f = Ok b -> exists a, m = Ok a /\ f a = Ok b.
Proof. destruct m as [a|e]; simpl; [intros H; exists a; split; [reflexivity|exact H]|discriminate]. Qed.

(** Whatever the payload parse consumed, the next value of [bytes] is the
    slice of the current one at [2 + |L| + next_offset]. *)
Lemma parse_record_next (uc : Z -> Z) (bs : list Z) (rc : dir_record) (rest : list Z) :
  parse_record uc bs = Ok (Some (rc, rest)) ->
  rest = py_slice_from (2 + Z.abs (rec_name_len bs) + rec_next_offset bs) bs.
Proof.
  unfold parse_record.
  destruct bs as [|b0 [|b1 tl]]; simpl; try discriminate.
  destruct ((signed8 b1 =? 0) || (signed8 b0 =? 0)); [discriminate|].
  destruct (decode_utf8_cps (firstn (Z.to_nat (Z.abs (signed8 b0))) tl)) as [name|e];
    simpl; [|discriminate].
  destruct (skipn (Z.to_nat (Z.abs (signed8 b0))) tl) as [|lo [|hi r]] eqn:Hs;
    intros H; try (cbn in H; discriminate).
  apply bind_ok in H. destruct H as (off & Hoff & H). cbn in Hoff.
  inversion Hoff; subst off; clear Hoff.
  apply bind_ok in H. destruct H as (rc' & _ & H). inversion H; subst.
  assert (Hlo : nth (Z.to_nat (Z.abs (signed8 b0))) tl 0 = lo)
    by (rewrite <- (Nat.add_0_r (Z.to_nat _)), <- nth_skipn_Z, Hs; reflexivity).
  assert (Hhi : nth (S (Z.to_nat (Z.abs (signed8 b0)))) tl 0 = hi)
    by (rewrite <- Nat.add_1_r, <- nth_skipn_Z, Hs; reflexivity).
  unfold rec_next_offset, rec_name_len.
  change (nth 0 (b0 :: b1 :: tl) 0) with b0.
  replace (Z.to_nat (2 + Z.abs (signed8 b0)))
    with (S (S (Z.to_nat (Z.abs (signed8 b0))))) by lia.
  cbn [nth]. rewrite Hlo, Hhi.
  reflexivity.
Qed.

(** C3 (as stated) fails when [2 + |L| + next_offset] is negative: the
    record at position 6 of this 16-byte directory has [L = 1] and
    [next_offset = -7], so the claimed resume position is 6 - 4 = 2, but
    Python's [bytes[-4:]] keeps the last 4 bytes and the scan resumes at
    position 12.  The names are ASCII, so this holds whatever the Unicode
    case mapping [uc]. *)
Lemma C3_negative_offset_counterexample :
  let dir := [1; 255; 65; 3; 0; 0; 1; 254; 66; 249; 255; 0; 0; 0; 0; 0] in
  let bs := skipn 6 dir in
  rec_name_len bs = 1 /\ rec_next_offset bs = -7 /\
  Z.of_nat 6 + (2 + Z.abs (rec_name_len bs) + rec_next_offset bs) = 2 /\
  forall uc : Z -> Z,
    parse_record uc dir = Ok (Some (RGroup 1 "A" EmptyString, bs)) /\
    exists rc rest, parse_record uc bs = Ok (Some (rc, rest)) /\
      Z.of_nat (List.length dir) - Z.of_nat (List.length rest) = 12.
Proof.
  vm_compute. split; [reflexivity|]. split; [reflexivity|]. split; [reflexivity|].
  intros uc. split; [reflexivity|].
  eexists; eexists. split; [reflexivity|]. reflexivity.
Qed.

(** C3 (amended): for every record at absolute position [start] of the
    directory chunk that parses, with name-length byte [L] and offset
    field [next_offset] such that [2 + |L| + next_offset >= 0], the scan
    resumes at absolute position [start + 2 + |L| + next_offset],
    whatever the payload parse consumed. *)
Theorem C3_resume_position (uc : Z -> Z) (dir : list Z) (start : nat) (rc : dir_record)
    (rest : list Z) :
  let bs := skipn start dir in
  let k := 2 + Z.abs (rec_name_len bs) + rec_next_offset bs in
  parse_record uc bs = Ok (Some (rc, rest)) ->
  0 <= k ->
  rest = skipn (start + Z.to_nat k) dir.
Proof.
  intros bs k Hp Hk. apply parse_record_next in Hp. rewrite Hp.
  unfold py_slice_from. fold k. destruct (0 <=? k) eqn:E; [|apply Z.leb_gt in E; lia].
  unfold bs. rewrite skipn_skipn. f_equal. lia.
Qed.

(** A group record at position 0 named with the two-byte UTF-8 sequence
    C3 A9 (U+00E9), followed by a terminating record. *)
Lemma C3_resume_position_witness :
  let dir := [2; 255; 195; 169; 3; 0; 0; 0; 0] in
  0 <= 2 + Z.abs (rec_name_len (skipn 0 dir)) + rec_next_offset (skipn 0 dir) /\
  forall uc : Z -> Z,
    parse_record uc (skipn 0 dir) =
      Ok (Some (RGroup 1 (utext [upper_cp uc 233]) EmptyString, skipn 7 dir)) /\
    skipn 7 dir = skipn (0 + Z.to_nat (2 + Z.abs (rec_name_len (skipn 0 dir))
                                       + rec_next_offset (skipn 0 dir))) dir.
Proof.
  intros dir.
  assert (Hk : 0 <= 2 + Z.abs (rec_name_len (skipn 0 dir)) + rec_next_offset (skipn 0 dir))
    by (vm_compute; discriminate).
  split; [exact Hk|]. intros uc.
  assert (Hp : parse_record uc (skipn 0 dir) =
                 Ok (Some (RGroup 1 (utext [upper_cp uc 233]) EmptyString, skipn 7 dir)))
    by reflexivity.
  split; [exact Hp|].
  exact (C3_resume_position uc dir 0 _ (skipn 7 dir) Hp Hk).
Defined.

(** ** Decoding groups whose parameters come first *)

Lemma update_nth_length {A} (n : nat) (f : A -> A) (l : list A) :
  List.length (update_nth n f l) = List.length l.
Proof.
  revert n; induction l as [|x l IH]; intros [|n]; simpl; try reflexivity.
  rewrite IH; reflexivity.
Qed.

Lemma nth_error_update_nth {A} (n i : nat) (f : A -> A) (l : list A) :
  nth_error (update_nth n f l) i =
  if Nat.eqb i n then option_map f (nth_error l i) else nth_error l i.
Proof.
  revert n i; induction l as [|x l IH]; intros [|n] [|i]; simpl;
    try reflexivity; try (destruct (Nat.eqb _ _); reflexivity).
  apply IH.
Qed.

Lemma update_nth_app_last {A} (f : A -> A) (l : list A) (x : A) :
  update_nth (List.length l) f (l ++ [x]) = l ++ [f x].
Proof. induction l as [|y l IH]; simpl; [reflexivity|rewrite IH; reflexivity]. Qed.

Lemma dict_get_set_key (k k' : key) (v : nat) (d : list (key * nat)) :
  dict_get key_eqb k (dict_set key_eqb k' v d) =
  if key_eqb k k' then Some v else dict_get key_eqb k d.
Proof. apply (dict_get_set key_eqb key_eqb_spec). Qed.

Lemma key_eqb_KId_KName (g : Z) (n : string) : key_eqb (KId g) (KName n) = false.
Proof. reflexivity. Qed.

Lemma apply_records_app (rs1 rs2 : list dir_record) (m : manager) :
  apply_records (rs1 ++ rs2) m =
  match apply_records rs1 m with
  | (Ok _, m1) => apply_records rs2 m1
  | (Err e, m1) => (Err e, m1)
  end.
Proof.
  revert m; induction rs1 as [|rc rs1 IH]; intros m; simpl.
  - reflexivity.
  - unfold st_bind at 1 2. destruct (apply_record rc m) as [[u|e] m1]; [|reflexivity].
    apply IH.
Qed.

Lemma store_wf_extend (m : manager) (gs : list group) (k : key) :
  store_wf m ->
  (forall g, k = KId g -> dict_get key_eqb k (groups m) = None) ->
  store_wf (mkManager (mheader m) (arena m ++ gs ++ [placeholder_group])
              (dict_set key_eqb k (List.length (arena m ++ gs)) (groups m))).
Proof.
  intros [Hb Hi] Hk. split; simpl.
  - intros k' i Hg. rewrite dict_get_set_key in Hg. rewrite !length_app in *.
    simpl. destruct (key_eqb k' k).
    + inversion Hg; lia.
    + apply Hb in Hg. lia.
  - intros g1 g2 i H1 H2. rewrite dict_get_set_key in H1, H2.
    destruct (key_eqb (KId g1) k) eqn:E1, (key_eqb (KId g2) k) eqn:E2.
    + apply key_eqb_spec in E1, E2. rewrite <- E1 in E2. inversion E2; reflexivity.
    + inversion H1; subst i. apply Hb in H2. rewrite length_app in H2. lia.
    + inversion H2; subst i. apply Hb in H1. rewrite length_app in H1. lia.
    + eapply Hi; eassumption.
Qed.

Lemma store_wf_update (m : manager) (r : nat) (f : group -> group) :
  store_wf m -> store_wf (set_arena m (update_nth r f (arena m))).
Proof.
  intros [Hb Hi]. split; simpl.
  - intros k i Hg. rewrite update_nth_length. eapply Hb; exact Hg.
  - exact Hi.
Qed.

Lemma store_wf_name (m : manager) (r : nat) (f : group -> group) (name : string) :
  store_wf m -> (r < List.length (arena m))%nat ->
  store_wf (mkManager (mheader m) (update_nth r f (arena m))
                      (dict_set key_eqb (KName name) r (groups m))).
Proof.
  intros [Hb Hi] Hr. split; simpl.
  - intros k i Hg. rewrite update_nth_length. rewrite dict_get_set_key in Hg.
    destruct (key_eqb k (KName name)); [inversion Hg; subst; exact Hr|eapply Hb; exact Hg].
  - intros g1 g2 i H1 H2. rewrite dict_get_set_key, key_eqb_KId_KName in H1, H2.
    eapply Hi; eassumption.
Qed.

(** [add_group] on a store, in the form the record decoder uses. *)
Lemma add_group_ok (m : manager) (gid : Z) (name desc : string) (u : nat) (m' : manager) :
  add_group gid name desc m = (Ok u, m') ->
  dict_get key_eqb (KId gid) (groups m) = None /\
  m' = mkManager (mheader m) (arena m ++ [mkGroup (Some (upper name)) (Some desc) []])
         (dict_set key_eqb (KId gid) (List.length (arena m))
            (dict_set key_eqb (KName (upper name)) (List.length (arena m)) (groups m))).
Proof.
  unfold add_group, dict_mem.
  destruct (dict_get key_eqb (KId gid) (groups m)); [intros H; discriminate|].
  destruct (dict_get key_eqb (KName (upper name)) (groups m)); [intros H; discriminate|].
  intros H; inversion H; subst. split; reflexivity.
Qed.

Lemma apply_record_wf (rc : dir_record) (m m' : manager) (u : unit) :
  store_wf m -> apply_record rc m = (Ok u, m') ->
  store_wf m' /\ (List.length (arena m) <= List.length (arena m'))%nat.
Proof.
  intros Hwf. destruct rc as [g p|g name desc]; simpl.
  - unfold st_bind, setdefault_group.
    destruct (dict_get key_eqb (KId g) (groups m)) as [r|] eqn:E; intros H; inversion H; subst.
    + split; [apply store_wf_update; exact Hwf|simpl; rewrite update_nth_length; lia].
    + split.
      * apply store_wf_update.
        pose proof (store_wf_extend m [] (KId g) Hwf) as W. rewrite app_nil_r in W.
        apply W. intros g' Hg'; inversion Hg'; subst; exact E.
      * simpl. rewrite update_nth_length, length_app. simpl. lia.
  - destruct (dict_get key_eqb (KId g) (groups m)) as [r|] eqn:E.
    + intros H; inversion H; subst. split.
      * apply store_wf_name; [exact Hwf|]. destruct Hwf as [Hb _]. eapply Hb; exact E.
      * simpl; rewrite update_nth_length; lia.
    + unfold st_bind.
      destruct (add_group g name desc m) as [[v|e] m1] eqn:A; intros H; inversion H; subst.
      apply add_group_ok in A. destruct A as [_ ->].
      destruct Hwf as [Hb Hi]. split; [split|]; simpl.
      * intros k i Hg. rewrite !dict_get_set_key in Hg. rewrite length_app; simpl.
        destruct (key_eqb k (KId g)); [inversion Hg; lia|].
        destruct (key_eqb k (KName (upper name))); [inversion Hg; lia|].
        apply Hb in Hg; lia.
      * intros g1 g2 i H1 H2. rewrite !dict_get_set_key, !key_eqb_KId_KName in H1, H2.
        destruct (key_eqb (KId g1) (KId g)) eqn:E1, (key_eqb (KId g2) (KId g)) eqn:E2.
        -- apply key_eqb_spec in E1, E2. rewrite <- E1 in E2. inversion E2; reflexivity.
        -- inversion H1; subst i. apply Hb in H2. lia.
        -- inversion H2; subst i. apply Hb in H1. lia.
        -- eapply Hi; eassumption.
      * rewrite length_app; simpl; lia.
Qed.

Lemma option_map_id {A} (o : option A) : option_map (fun x => x) o = o.
Proof. destruct o; reflexivity. Qed.

Lemma apply_record_bound (G : Z) (r : nat) (rc : dir_record) (m m' : manager) (u : unit) :
  store_wf m ->
  dict_get key_eqb (KId G) (groups m) = Some r ->
  has_header_of G [rc] = false ->
  apply_record rc m = (Ok u, m') ->
  dict_get key_eqb (KId G) (groups m') = Some r /\
  nth_error (arena m') r = option_map (rec_effect G rc) (nth_error (arena m) r).
Proof.
  intros Hwf HG Hh. pose proof Hwf as [Hb Hi].
  assert (Hr : (r < List.length (arena m))%nat) by (eapply Hb; exact HG).
  destruct rc as [g p|g name desc]; simpl in Hh |- *.
  - unfold st_bind, setdefault_group.
    destruct (dict_get key_eqb (KId g) (groups m)) as [r'|] eqn:E; intros H; inversion H; subst; simpl.
    + split; [exact HG|]. rewrite nth_error_update_nth.
      destruct (Z.eqb g G) eqn:EG.
      * apply Z.eqb_eq in EG; subst g. rewrite HG in E. inversion E; subst.
        rewrite Nat.eqb_refl. reflexivity.
      * destruct (Nat.eqb r r') eqn:Er; [|rewrite option_map_id; reflexivity].
        apply Nat.eqb_eq in Er; subst r'.
        assert (g = G) by (eapply Hi; eassumption). subst g. rewrite Z.eqb_refl in EG.
        discriminate.
    + assert (EG : (g =? G) = false).
      { destruct (Z.eqb g G) eqn:EG; [|reflexivity].
        apply Z.eqb_eq in EG; subst g. rewrite HG in E. discriminate. }
      rewrite EG, option_map_id. split.
      * rewrite dict_get_set_key. simpl. rewrite Z.eqb_sym, EG. exact HG.
      * rewrite nth_error_update_nth.
        destruct (Nat.eqb r (List.length (arena m))) eqn:Er;
          [apply Nat.eqb_eq in Er; lia|].
        apply nth_error_app1; exact Hr.
  - rewrite option_map_id.
    assert (EG : (g =? G) = false) by (rewrite orb_false_r in Hh; exact Hh).
    destruct (dict_get key_eqb (KId g) (groups m)) as [r'|] eqn:E.
    + intros H; inversion H; subst; simpl. split.
      * rewrite dict_get_set_key, key_eqb_KId_KName. exact HG.
      * rewrite nth_error_update_nth.
        destruct (Nat.eqb r r') eqn:Er; [|reflexivity].
        apply Nat.eqb_eq in Er; subst r'.
        assert (g = G) by (eapply Hi; eassumption). subst g. rewrite Z.eqb_refl in EG.
        discriminate.
    + unfold st_bind.
      destruct (add_group g name desc m) as [[v|e] m1] eqn:A; intros H; inversion H; subst.
      apply add_group_ok in A. destruct A as [_ ->]. simpl. split.
      * rewrite !dict_get_set_key, key_eqb_KId_KName. simpl. rewrite Z.eqb_sym, EG. exact HG.
      * apply nth_error_app1; exact Hr.
Qed.

Lemma apply_record_unbound (G : Z) (rc : dir_record) (m m' : manager) (u : unit) :
  store_wf m ->
  dict_get key_eqb (KId G) (groups m) = None ->
  has_header_of G [rc] = false ->
  apply_record rc m = (Ok u, m') ->
  (params_of G [rc] = [] -> dict_get key_eqb (KId G) (groups m') = None) /\
  (forall p, rc = RParam G p ->
     dict_get key_eqb (KId G) (groups m') = Some (List.length (arena m)) /\
     nth_error (arena m') (List.length (arena m)) =
       Some (group_add_param placeholder_group p)).
Proof.
  intros Hwf HG Hh.
  destruct rc as [g p|g name desc]; simpl in Hh |- *.
  - unfold st_bind, setdefault_group.
    destruct (dict_get key_eqb (KId g) (groups m)) as [r'|] eqn:E; intros H; inversion H; subst; simpl.
    + destruct (Z.eqb g G) eqn:EG.
      * apply Z.eqb_eq in EG; subst g. rewrite HG in E. discriminate.
      * split; [intros _; exact HG|]. intros p' Hp. inversion Hp; subst.
        rewrite Z.eqb_refl in EG. discriminate.
    + split.
      * intros Hp. rewrite dict_get_set_key. simpl.
        destruct (Z.eqb g G) eqn:EG; [discriminate|]. rewrite Z.eqb_sym, EG. exact HG.
      * intros p' Hp. inversion Hp; subst g p'. split.
        -- rewrite dict_get_set_key. simpl. rewrite Z.eqb_refl. reflexivity.
        -- rewrite nth_error_update_nth, Nat.eqb_refl.
           rewrite nth_error_app2, Nat.sub_diag by lia. reflexivity.
  - assert (EG : (g =? G) = false) by (rewrite orb_false_r in Hh; exact Hh).
    destruct (dict_get key_eqb (KId g) (groups m)) as [r'|] eqn:E.
    + intros H; inversion H; subst; simpl.
      split; [|intros p Hp; discriminate]. intros _.
      rewrite dict_get_set_key, key_eqb_KId_KName. exact HG.
    + unfold st_bind.
      destruct (add_group g name desc m) as [[v|e] m1] eqn:A; intros H; inversion H; subst.
      apply add_group_ok in A. destruct A as [_ ->]. simpl.
      split; [|intros p Hp; discriminate]. intros _.
      rewrite !dict_get_set_key, key_eqb_KId_KName. simpl. rewrite Z.eqb_sym, EG. exact HG.
Qed.

Lemma params_of_cons (G : Z) (rc : dir_record) (rs : list dir_record) :
  params_of G (rc :: rs) = params_of G [rc] ++ params_of G rs.
Proof. unfold params_of; simpl. rewrite app_nil_r. reflexivity. Qed.

Lemma rec_effect_fold (G : Z) (rc : dir_record) (g : group) :
  rec_effect G rc g = fold_left group_add_param (params_of G [rc]) g.
Proof.
  destruct rc as [g' p|g' n d]; simpl; [|reflexivity].
  destruct (g' =? G); reflexivity.
Qed.

Lemma apply_records_bound (G : Z) (rs : list dir_record) :
  forall (m m' : manager) (r : nat) (g : group) (u : unit),
  store_wf m ->
  dict_get key_eqb (KId G) (groups m) = Some r ->
  nth_error (arena m) r = Some g ->
  has_header_of G rs = false ->
  apply_records rs m = (Ok u, m') ->
  store_wf m' /\ dict_get key_eqb (KId G) (groups m') = Some r /\
  nth_error (arena m') r = Some (fold_left group_add_param (params_of G rs) g).
Proof.
  induction rs as [|rc rs IH]; intros m m' r g u Hwf HG Hg Hh H.
  - simpl in H. inversion H; subst. split; [exact Hwf|split; assumption].
  - simpl in H, Hh. apply orb_false_iff in Hh. destruct Hh as [Hh1 Hh2].
    unfold st_bind in H.
    destruct (apply_record rc m) as [[u0|e] m1] eqn:A; [|discriminate].
    assert (Hh1' : has_header_of G [rc] = false) by (simpl; rewrite Hh1; reflexivity).
    destruct (apply_record_wf rc m m1 u0 Hwf A) as [Hwf1 _].
    destruct (apply_record_bound G r rc m m1 u0 Hwf HG Hh1' A) as [HG1 Hg1].
    rewrite Hg in Hg1. simpl in Hg1.
    destruct (IH m1 m' r (rec_effect G rc g) u Hwf1 HG1 Hg1 Hh2 H) as (W & K & N).
    split; [exact W|split; [exact K|]].
    rewrite N, params_of_cons, fold_left_app, <- rec_effect_fold. reflexivity.
Qed.

Lemma apply_records_unbound (G : Z) (rs : list dir_record) :
  forall (m m' : manager) (u : unit),
  store_wf m ->
  dict_get key_eqb (KId G) (groups m) = None ->
  has_header_of G rs = false ->
  apply_records rs m = (Ok u, m') ->
  store_wf m' /\
  (params_of G rs = [] -> dict_get key_eqb (KId G) (groups m') = None).
Proof.
  induction rs as [|rc rs IH]; intros m m' u Hwf HG Hh H.
  - simpl in H. inversion H; subst. split; [exact Hwf|intros _; exact HG].
  - simpl in H, Hh. apply orb_false_iff in Hh. destruct Hh as [Hh1 Hh2].
    unfold st_bind in H.
    destruct (apply_record rc m) as [[u0|e] m1] eqn:A; [|discriminate].
    assert (Hh1' : has_header_of G [rc] = false) by (simpl; rewrite Hh1; reflexivity).
    destruct (apply_record_wf rc m m1 u0 Hwf A) as [Hwf1 _].
    destruct (apply_record_unbound G rc m m1 u0 Hwf HG Hh1' A) as [Hn _].
    split.
    + destruct (params_of G [rc]) as [|p0 l0] eqn:Hp.
      * exact (proj1 (IH m1 m' u Hwf1 (Hn eq_refl) Hh2 H)).
      * destruct rc as [g p|g n d]; simpl in Hp; [|discriminate].
        destruct (g =? G) eqn:EG; [|discriminate]. apply Z.eqb_eq in EG; subst g.
        destruct (apply_record_unbound G (RParam G p) m m1 u0 Hwf HG Hh1' A) as [_ Hc].
        destruct (Hc p eq_refl) as [K N].
        exact (proj1 (apply_records_bound G rs m1 m' _ _ u Hwf1 K N Hh2 H)).
    + rewrite params_of_cons. intros Hp. apply app_eq_nil in Hp. destruct Hp as [Hp1 Hp2].
      exact (proj2 (IH m1 m' u Hwf1 (Hn Hp1) Hh2 H) Hp2).
Qed.


Lemma group_add_param_get (g : group) (q : param) (k : string) :
  dict_get String.eqb k (gparams (group_add_param g q)) =
  if String.eqb k (upper (pname q)) then Some (norm_param q)
  else dict_get String.eqb k (gparams g).
Proof. unfold group_add_param; simpl. apply (dict_get_set String.eqb string_eqb_spec). Qed.

Lemma fold_params_keep (ps : list param) :
  forall g k q', dict_get String.eqb k (gparams g) = Some q' -> pname q' = k ->
  exists q'', dict_get String.eqb k (gparams (fold_left group_add_param ps g)) = Some q''
              /\ pname q'' = k.
Proof.
  induction ps as [|x ps IH]; intros g k q' Hg Hn; simpl.
  - exists q'; split; assumption.
  - destruct (String.eqb k (upper (pname x))) eqn:E.
    + apply String.eqb_eq in E.
      apply (IH (group_add_param g x) k (norm_param x)); [|rewrite E; reflexivity].
      rewrite group_add_param_get, E, String.eqb_refl. reflexivity.
    + apply (IH (group_add_param g x) k q'); [|exact Hn].
      rewrite group_add_param_get, E. exact Hg.
Qed.

Lemma fold_params_holds (ps : list param) :
  forall g q, In q ps ->
  exists q', dict_get String.eqb (upper (pname q)) (gparams (fold_left group_add_param ps g)) = Some q'
             /\ pname q' = upper (pname q).
Proof.
  induction ps as [|x ps IH]; intros g q Hin; [destruct Hin|simpl].
  destruct Hin as [->|Hin].
  - apply (fold_params_keep ps (group_add_param g q) _ (norm_param q)); [|reflexivity].
    rewrite group_add_param_get, String.eqb_refl. reflexivity.
  - apply IH; exact Hin.
Qed.

Lemma fold_params_untouched (ps : list param) :
  forall g k v, dict_get String.eqb k (gparams g) = Some v ->
  ~ In k (map (fun q => upper (pname q)) ps) ->
  dict_get String.eqb k (gparams (fold_left group_add_param ps g)) = Some v.
Proof.
  induction ps as [|x ps IH]; intros g k v Hg Hk; simpl; [exact Hg|].
  simpl in Hk. apply IH; [|tauto].
  rewrite group_add_param_get.
  destruct (String.eqb k (upper (pname x))) eqn:E; [|exact Hg].
  apply String.eqb_eq in E. exfalso; apply Hk; left; symmetry; exact E.
Qed.

Lemma fold_params_exact (ps : list param) :
  forall g q, NoDup (map (fun q => upper (pname q)) ps) -> In q ps ->
  dict_get String.eqb (upper (pname q)) (gparams (fold_left group_add_param ps g))
  = Some (norm_param q).
Proof.
  induction ps as [|x ps IH]; intros g q Hnd Hin; [destruct Hin|simpl].
  simpl in Hnd. inversion Hnd as [|? ? Hx Hnd']; subst.
  destruct Hin as [->|Hin].
  - apply fold_params_untouched; [|exact Hx].
    rewrite group_add_param_get, String.eqb_refl. reflexivity.
  - apply IH; assumption.
Qed.

(** C7: in a directory whose parameter records for group id [G] come
    before the header record of [G] (other records may come before and in
    between), the first parameter of [G] creates one unnamed placeholder
    group under [G]; once the header record of [G] is processed, that same
    group object, reachable by the id [G] and by the header's name, carries
    the header's name and description and holds every parameter of [G]
    (each under its upper-cased name: with distinct names, exactly the
    parsed parameter; a repeated name keeps the last one). *)
Theorem C7_placeholder_group_adopted
    (G : Z) (pre post : list dir_record) (p : param) (name desc : string) (m : manager) :
  store_wf m ->
  dict_get key_eqb (KId G) (groups m) = None ->
  params_of G pre = [] ->
  has_header_of G (pre ++ post) = false ->
  fst (apply_records (pre ++ RParam G p :: post) m) = Ok tt ->
  exists r,
    (let '(res1, m1) := apply_records (pre ++ [RParam G p]) m in
     res1 = Ok tt /\ dict_get key_eqb (KId G) (groups m1) = Some r /\
     exists g1, nth_error (arena m1) r = Some g1 /\
       gname g1 = None /\ gdesc g1 = None /\
       dict_get String.eqb (upper (pname p)) (gparams g1) = Some (norm_param p)) /\
    (let '(res, m') := apply_records (pre ++ RParam G p :: post ++ [RGroup G name desc]) m in
     res = Ok tt /\
     dict_get key_eqb (KId G) (groups m') = Some r /\
     dict_get key_eqb (KName name) (groups m') = Some r /\
     exists g, nth_error (arena m') r = Some g /\
       gname g = Some name /\ gdesc g = Some desc /\
       (forall q, In q (p :: params_of G post) ->
          exists q', dict_get String.eqb (upper (pname q)) (gparams g) = Some q' /\
                     pname q' = upper (pname q)) /\
       (NoDup (map (fun q => upper (pname q)) (p :: params_of G post)) ->
        forall q, In q (p :: params_of G post) ->
          dict_get String.eqb (upper (pname q)) (gparams g) = Some (norm_param q))).
Proof.
  intros Hwf HG Hpre Hh Hok.
  unfold has_header_of in Hh; rewrite existsb_app in Hh. apply orb_false_iff in Hh. destruct Hh as [Hhpre Hhpost].
  rewrite apply_records_app in Hok.
  destruct (apply_records pre m) as [[u0|e] m0] eqn:A0; [|discriminate].
  destruct (apply_records_unbound G pre m m0 u0 Hwf HG Hhpre A0) as [Hwf0 Hn0].
  specialize (Hn0 Hpre).
  change (apply_records (RParam G p :: post) m0) with
    (st_bind (apply_record (RParam G p)) (fun _ => apply_records post) m0) in Hok.
  unfold st_bind at 1 in Hok.
  destruct (apply_record (RParam G p) m0) as [[u1|e] m1] eqn:A1; [|discriminate].
  assert (Hh1 : has_header_of G [RParam G p] = false) by reflexivity.
  destruct (apply_record_unbound G (RParam G p) m0 m1 u1 Hwf0 Hn0 Hh1 A1) as [_ Hc].
  destruct (Hc p eq_refl) as [K1 N1].
  destruct (apply_record_wf (RParam G p) m0 m1 u1 Hwf0 A1) as [Hwf1 _].
  exists (List.length (arena m0)). split.
  - rewrite apply_records_app, A0.
    change (apply_records [RParam G p] m0) with
      (st_bind (apply_record (RParam G p)) (fun _ => apply_records []) m0).
    unfold st_bind at 1. rewrite A1. cbn.
    split; [reflexivity|]. split; [exact K1|].
    eexists; split; [exact N1|]. split; [reflexivity|]. split; [reflexivity|].
    rewrite group_add_param_get, String.eqb_refl. reflexivity.
  - rewrite apply_records_app, A0.
    change (apply_records (RParam G p :: post ++ [RGroup G name desc]) m0) with
      (st_bind (apply_record (RParam G p)) (fun _ => apply_records (post ++ [RGroup G name desc])) m0).
    unfold st_bind at 1. rewrite A1.
    rewrite apply_records_app.
    destruct (apply_records post m1) as [[u2|e] m2] eqn:A2; [|discriminate].
    destruct (apply_records_bound G post m1 m2 _ _ u2 Hwf1 K1 N1 Hhpost A2) as (Hwf2 & K2 & N2).
    change (apply_records [RGroup G name desc] m2) with
      (st_bind (apply_record (RGroup G name desc)) (fun _ => apply_records []) m2).
    unfold st_bind at 1. cbn [apply_record]. rewrite K2. cbn [apply_records st_ret groups arena fst snd].
    split; [reflexivity|].
    split; [rewrite dict_get_set_key, key_eqb_KId_KName; exact K2|].
    split; [rewrite dict_get_set_key; simpl; rewrite String.eqb_refl; reflexivity|].
    rewrite nth_error_update_nth, Nat.eqb_refl, N2. simpl.
    eexists; split; [reflexivity|]. simpl.
    split; [reflexivity|]. split; [reflexivity|].
    split.
    + intros q Hq. apply (fold_params_holds (p :: params_of G post) placeholder_group q Hq).
    + intros Hnd q Hq. apply (fold_params_exact (p :: params_of G post) placeholder_group q Hnd Hq).
Qed.

Lemma C7_placeholder_group_adopted_witness :
  let m0 := mkManager default_header [] [] in
  let pA := mkParam "a" EmptyString 1 [] [] in
  let pB := mkParam "b" EmptyString 1 [] [] in
  let pre := [RGroup 2 "ANALOG" EmptyString] in
  let post := [RParam 2 pB; RParam 1 pB] in
  store_wf m0 /\
  dict_get key_eqb (KId 1) (groups m0) = None /\
  params_of 1 pre = [] /\
  has_header_of 1 (pre ++ post) = false /\
  fst (apply_records (pre ++ RParam 1 pA :: post) m0) = Ok tt /\
  exists r,
    (let '(res1, m1) := apply_records (pre ++ [RParam 1 pA]) m0 in
     res1 = Ok tt /\ dict_get key_eqb (KId 1) (groups m1) = Some r /\
     exists g1, nth_error (arena m1) r = Some g1 /\
       gname g1 = None /\ gdesc g1 = None /\
       dict_get String.eqb (upper (pname pA)) (gparams g1) = Some (norm_param pA)) /\
    (let '(res, m') := apply_records (pre ++ RParam 1 pA :: post ++ [RGroup 1 "POINT" "d"]) m0 in
     res = Ok tt /\
     dict_get key_eqb (KId 1) (groups m') = Some r /\
     dict_get key_eqb (KName "POINT") (groups m') = Some r /\
     exists g, nth_error (arena m') r = Some g /\
       gname g = Some "POINT" /\ gdesc g = Some "d" /\
       (forall q, In q (pA :: params_of 1 post) ->
          exists q', dict_get String.eqb (upper (pname q)) (gparams g) = Some q' /\
                     pname q' = upper (pname q)) /\
       (NoDup (map (fun q => upper (pname q)) (pA :: params_of 1 post)) ->
        forall q, In q (pA :: params_of 1 post) ->
          dict_get String.eqb (upper (pname q)) (gparams g) = Some (norm_param q))).
Proof.
  intros m0 pA pB pre post.
  assert (Hwf : store_wf m0).
  { split; intros; discriminate. }
  split; [exact Hwf|]. split; [reflexivity|]. split; [reflexivity|].
  split; [reflexivity|]. split; [vm_compute; reflexivity|].
  apply (C7_placeholder_group_adopted 1 pre post pA "POINT" "d" m0 Hwf);
    vm_compute; reflexivity.
Defined.

(** [read(n)] at position 0. *)
Lemma hread_at_0 (c : list Z) (r : list (nat * Z)) (n : Z) :
  0 <= n ->
  hread n (mkHandle c 0 r) =
  (firstn (Z.to_nat n) c, mkHandle c (List.length (firstn (Z.to_nat n) c)) (r ++ [(0%nat, n)])).
Proof.
  intros Hn. unfold hread. cbn [hpos contents reads skipn].
  replace (n <? 0) with false by (symmetry; apply Z.ltb_ge; lia). reflexivity.
Qed.

(** A bad magic byte makes [Header.read] raise after its single 512-byte
    read, whatever header object it fills. *)
Lemma header_read_bad_magic (hd : header) (h : handle) :
  (512 <= List.length (contents h))%nat -> nth 1 (contents h) 0 <> 80 ->
  exists hd',
    header_read (hd, h) =
    (Err (AssertionError "C3D magic != 80 !" [float_of_Z (nth 1 (contents h) 0)]),
     (hd', mkHandle (contents h) 512 (reads h ++ [(0%nat, 512)]))).
Proof.
  intros Hlen Hm. destruct h as [c p r]; cbn [contents reads] in *.
  pose proof (hread_at_0 c r 512 ltac:(lia)) as E.
  assert (Hbl : List.length (firstn (Z.to_nat 512) c) = 512%nat) by (rewrite firstn_length_le; lia).
  assert (Hb1 : nth 1 (firstn (Z.to_nat 512) c) 0 = nth 1 c 0).
  { destruct c as [|x0 [|x1 rest]]; reflexivity. }
  rewrite Hbl in E.
  set (bs := firstn (Z.to_nat 512) c) in *. clearbody bs.
  unfold header_read.
  change (hseek 0 (mkHandle c p r)) with (@Ok handle (mkHandle c 0 r)).
  cbv beta iota. rewrite E. cbv beta iota.
  unfold unpack_header. rewrite Hbl. cbv beta iota. cbn [negb Nat.eqb].
  rewrite Hb1.
  replace (nth 1 c 0 =? 80) with false by (symmetry; apply Z.eqb_neq; exact Hm).
  eexists. reflexivity.
Qed.

(** C6: on a file whose first 512 bytes have a magic byte (offset 1)
    other than 80, [Header.read] fails and [Reader.__init__] fails with
    the same error, the only read made on the handle being the 512-byte
    header read at position 0. The format error of the specification is
    the [AssertionError] of [assert magic == 80]. *)
Theorem C6_bad_magic_stops_after_header (uc : Z -> Z) (fuel : nat) (hd : header) (h : handle) :
  (512 <= List.length (contents h))%nat -> nth 1 (contents h) 0 <> 80 ->
  let h' := mkHandle (contents h) 512 (reads h ++ [(0%nat, 512)]) in
  (exists msg vals hd', header_read (hd, h) = (Err (AssertionError msg vals), (hd', h'))) /\
  (exists msg vals, reader_init uc fuel h = Some (Err (AssertionError msg vals), h')).
Proof.
  intros Hlen Hm h'. split.
  - destruct (header_read_bad_magic hd h Hlen Hm) as [hd' E].
    do 3 eexists. exact E.
  - destruct (header_read_bad_magic default_header h Hlen Hm) as [hd' E].
    unfold reader_init. rewrite E. do 2 eexists. reflexivity.
Qed.

Lemma C6_bad_magic_stops_after_header_witness :
  let h := mkHandle (repeat 0 512) 0 [] in
  ((512 <= List.length (contents h))%nat /\ nth 1 (contents h) 0 <> 80) /\
  let h' := mkHandle (contents h) 512 (reads h ++ [(0%nat, 512)]) in
  (exists msg vals hd', header_read (default_header, h) = (Err (AssertionError msg vals), (hd', h'))) /\
  (forall uc : Z -> Z, exists msg vals, reader_init uc 10 h = Some (Err (AssertionError msg vals), h')).
Proof.
  intro h.
  assert (H1 : (512 <= List.length (contents h))%nat) by (vm_compute; lia).
  assert (H2 : nth 1 (contents h) 0 <> 80) by (vm_compute; discriminate).
  split; [split; assumption|].
  split.
  - exact (proj1 (C6_bad_magic_stops_after_header (fun c => c) 10 default_header h H1 H2)).
  - intros uc. exact (proj2 (C6_bad_magic_stops_after_header uc 10 default_header h H1 H2)).
Defined.

(** C8 (counterexample): a store whose header and POINT group agree on
    the point count (1), the scale factor (-1.0) and the frame rate (0.0),
    with header.analog_count 5, ANALOG:USED 49 and ANALOG:RATE 1.0.  The
    first three checks pass; 5 differs from 49 x (1.0 / 0.0), which has no
    value, yet [check_metadata] does not report an inconsistent analog
    count: the division by the frame rate raises [ZeroDivisionError]. *)
Lemma C8_zero_frame_rate_counterexample :
  let pg := mkGroup (Some "POINT") (Some EmptyString)
              [("USED", mkParam "USED" EmptyString 2 [] [1; 0]);
               ("SCALE", mkParam "SCALE" EmptyString 4 [] [0; 0; 128; 191]);
               ("RATE", mkParam "RATE" EmptyString 4 [] [0; 0; 0; 0]);
               ("DATA_START", mkParam "DATA_START" EmptyString 2 [] [3; 0])] in
  let m := mkManager (mkHeader 2 1 5 1 1 0 (PrimFloat.opp 1) 3 0 0 0 0)
             [pg; example_analog_group]
             [(KId 1, 0%nat); (KName "POINT", 0%nat); (KId 2, 1%nat); (KName "ANALOG", 1%nat)] in
  points_per_frame m = Ok (point_count (mheader m)) /\
  scale_factor_param m = Ok (scale_factor (mheader m)) /\
  frame_rate_param m = Ok (frame_rate (mheader m)) /\
  frame_rate (mheader m) = 0%float /\
  analog_count (mheader m) = 5 /\
  analog_per_frame m = Ok 49 /\ analog_frame_rate m = Ok 1%float /\
  check_metadata m = Err ZeroDivisionError.
Proof. vm_compute. repeat split; reflexivity. Qed.

(** C8: once the point-count, scale-factor and frame-rate checks of
    [check_metadata] have passed (POINT:USED, POINT:SCALE and POINT:RATE
    present and equal to the header's values), the analog check divides
    by the frame rate: a zero rate raises [ZeroDivisionError]; otherwise
    it compares header.analog_count with (USED x RATE) / POINT:RATE
    computed in double precision (USED and RATE of the ANALOG group, 0
    when absent): on a difference [check_metadata] fails with an assertion
    reporting header.analog_count, USED, RATE and the frame rate; on
    equality it goes on with the remaining checks. *)
Theorem C8_analog_count_check (m : manager) (ppf used : Z) (sf fr rate : float) :
  points_per_frame m = Ok ppf -> point_count (mheader m) = ppf ->
  scale_factor_param m = Ok sf -> PrimFloat.eqb (scale_factor (mheader m)) sf = true ->
  frame_rate_param m = Ok fr -> PrimFloat.eqb (frame_rate (mheader m)) fr = true ->
  analog_per_frame m = Ok used -> analog_frame_rate m = Ok rate ->
  check_metadata m =
    if PrimFloat.eqb fr 0 then Err ZeroDivisionError
    else if PrimFloat.eqb (float_of_Z (analog_count (mheader m))) (float_of_Z used * rate / fr)%float
    then check_metadata_tail m
    else Err (AssertionError "inconsistent analog count!"
                [float_of_Z (analog_count (mheader m)); float_of_Z used; rate; fr]).
Proof.
  intros Hp Hpc Hs Hse Hf Hfe Ha Har.
  unfold check_metadata.
  rewrite Hp. cbn [bind]. unfold assert_. rewrite Hpc, Z.eqb_refl. cbn [bind].
  rewrite Hs. cbn [bind]. rewrite Hse. cbn [bind].
  rewrite Hf. cbn [bind]. rewrite Hfe. cbn [bind].
  rewrite Ha. cbn [bind]. rewrite Har. cbn [bind].
  unfold float_div. destruct (PrimFloat.eqb fr 0); [reflexivity|]. cbn [bind].
  destruct (PrimFloat.eqb (float_of_Z (analog_count (mheader m))) (float_of_Z used * rate / fr)%float);
    reflexivity.
Qed.

Lemma C8_analog_count_check_witness :
  let m := example_manager (mkHeader 2 1 1 1 1 0 (PrimFloat.opp 1) 3 0 49 0 0) in
  check_metadata m = check_metadata_tail m /\
  check_metadata m = Ok [String.append "missing parameter " "POINT:LABELS";
                         String.append "missing parameter " "POINT:DESCRIPTIONS";
                         String.append "missing parameter " "ANALOG:LABELS";
                         String.append "missing parameter " "ANALOG:DESCRIPTIONS"].
Proof.
  intro m.
  pose proof (C8_analog_count_check m 1 49 (PrimFloat.opp 1) 49 1
                ltac:(vm_compute; reflexivity) ltac:(vm_compute; reflexivity)
                ltac:(vm_compute; reflexivity) ltac:(vm_compute; reflexivity)
                ltac:(vm_compute; reflexivity) ltac:(vm_compute; reflexivity)
                ltac:(vm_compute; reflexivity) ltac:(vm_compute; reflexivity)) as E.
  assert (E0 : PrimFloat.eqb 49 0 = false) by (vm_compute; reflexivity).
  assert (Eq : PrimFloat.eqb (float_of_Z (analog_count (mheader m))) (float_of_Z 49 * 1 / 49)%float = true)
    by (vm_compute; reflexivity).
  rewrite E0, Eq in E. split; [exact E|]. rewrite E. vm_compute. reflexivity.
Defined.

(** C1 (code slip): with the default scale factor -1 (float storage) and
    one frame holding the valid point (1, 2, 3, 0, 0), [_write_frames]
    writes x, y, z divided by the signed [point_scale_factor], and the
    decoder, which multiplies float records by 1, reads (-1, -2, -3) back;
    the run ends in [AttributeError] at [self._pad_block()]. With a
    non-negative scale factor (integer storage) the [array('i')] refuses
    the float values and nothing is written. [Writer.write] itself stops
    before [_write_frames]: its first [add_param] call passes the keyword
    [data_size], which [Param.__init__] does not take. *)
Theorem C1_round_trip_negates_float_coordinates :
  let fs := [mkFrame [mkPoint 1 2 3 0 0] []] in
  write_frames 512 2 (PrimFloat.opp 1) (PrimFloat.opp 1) 1 [mkRow 0 0 0 0] fs =
    ([CFloat (PrimFloat.opp 1); CFloat (PrimFloat.opp 2); CFloat (PrimFloat.opp 3); CFloat 0],
     Err (AttributeError "'Writer' object has no attribute '_handle'")) /\
  decode_points (PrimFloat.opp 1) 1
    [CFloat (PrimFloat.opp 1); CFloat (PrimFloat.opp 2); CFloat (PrimFloat.opp 3); CFloat 0] =
    Some [mkPoint (PrimFloat.opp 1) (PrimFloat.opp 2) (PrimFloat.opp 3) 0 0] /\
  fst (write_frames 512 2 1 1 1 [mkRow 0 0 0 0] fs) = [] /\
  snd (write_frames 512 2 1 1 1 [mkRow 0 0 0 0] fs) =
    Err (TypeError "integer argument expected, got float") /\
  param_init_kwargs ["desc"; "data_size"; "bytes"] =
    Err (TypeError (String.append "__init__() got an unexpected keyword argument " "data_size")).
Proof. vm_compute. repeat split; reflexivity. Qed.

(** Frames differing only in their analog values are written alike. *)
Lemma write_frames_loop_analog (is_float : bool) (scale psf : float) (ppf : nat)
    (fs : list frame) :
  forall raw out,
  write_frames_loop is_float scale psf ppf raw fs out =
  write_frames_loop is_float scale psf ppf raw (map (fun f => mkFrame (fpoints f) []) fs) out.
Proof.
  induction fs as [|f fs IH]; intros raw out; [reflexivity|].
  simpl. unfold write_frame at 1 2. simpl fpoints.
  destruct (negb (Nat.eqb (List.length (fpoints f)) ppf)); [reflexivity|].
  destruct (array_extend is_float _) as [pt|e]; simpl; [|reflexivity].
  destruct (array_extend is_float []) as [an|e]; simpl; [|reflexivity].
  apply IH.
Qed.

(** C4 (code slip): the cells [_write_frames] writes do not depend on the
    frames' analog values: each frame's [analog] is shadowed by a new
    empty array before being extended and written, so after the point
    records of a frame nothing of its analog samples reaches the file. *)
Theorem C4_analog_values_not_written (tell data_block : Z) (sf psf : float) (ppf : nat)
    (raw0 : list row) (fs : list frame) :
  write_frames tell data_block sf psf ppf raw0 fs =
  write_frames tell data_block sf psf ppf raw0 (map (fun f => mkFrame (fpoints f) []) fs) /\
  fst (write_frames 512 2 (PrimFloat.opp 1) (PrimFloat.opp 1) 1 [mkRow 0 0 0 0]
         [mkFrame [mkPoint 1 2 3 0 0] [[7%float]]]) =
    [CFloat (PrimFloat.opp 1); CFloat (PrimFloat.opp 2); CFloat (PrimFloat.opp 3); CFloat 0].
Proof.
  split.
  - unfold write_frames. destruct (negb _); [reflexivity|].
    apply write_frames_loop_analog.
  - vm_compute. reflexivity.
Qed.

(** ** Extra properties *)

(** Packing an in-range integer with [struct.pack] and unpacking the
    bytes with the same format ([Param._as]) gives the integer back; an
    out-of-range value makes [struct.pack] raise. *)
Theorem struct_pack_unpack_int (v : Z) :
  (0 <= v <= 255 -> (b <- pack_B v ;; unpack_B b) = Ok v) /\
  (-128 <= v <= 127 -> (b <- pack_b v ;; unpack_b b) = Ok v) /\
  (0 <= v <= 65535 -> (b <- pack_H v ;; unpack_H b) = Ok v) /\
  (-32768 <= v <= 32767 -> (b <- pack_h v ;; unpack_h b) = Ok v) /\
  (0 <= v <= 4294967295 -> (b <- pack_I v ;; unpack_I b) = Ok v) /\
  (-2147483648 <= v <= 2147483647 -> (b <- pack_i v ;; unpack_i b) = Ok v) /\
  (v < 0 \/ 65535 < v -> pack_H v = Err StructError) /\
  (v < -32768 \/ 32767 < v -> pack_h v = Err StructError).
Proof.
  unfold pack_B, pack_b, pack_H, pack_h, pack_I, pack_i, pack_int.
  repeat split; intros Hv;
    [..| destruct Hv as [Hv|Hv]; destruct (-32768 <=? v) eqn:E1; destruct (v <=? 32767) eqn:E2;
         rewrite ?Z.leb_le, ?Z.leb_gt in *; try reflexivity; lia].
  all: try (destruct Hv as [Hv|Hv]; destruct (0 <=? v) eqn:E1; destruct (v <=? 65535) eqn:E2;
            rewrite ?Z.leb_le, ?Z.leb_gt in *; try reflexivity; lia).
  all: repeat match goal with
    | |- context [(?a <=? ?b)] =>
        replace (a <=? b) with true by (symmetry; apply Z.leb_le; lia)
    end; cbn [andb le_bytes bind unpack_B unpack_b unpack_H unpack_h unpack_I unpack_i];
    f_equal;
    unfold signed8, signed16, signed32, uint16_le, uint32_le, le32;
    repeat match goal with |- context [if ?c then _ else _] => destruct c eqn:? end;
    rewrite ?Z.ltb_lt, ?Z.ltb_ge in *;
    Z.to_euclidean_division_equations; lia.
Qed.
Lemma buf_read_app (n : nat) (xs ys : list Z) :
  List.length xs = n -> buf_read n (xs ++ ys) = (xs, ys).
Proof.
  intros <-. unfold buf_read. rewrite firstn_app, skipn_app, firstn_all, Nat.sub_diag, skipn_all.
  simpl. rewrite app_nil_r. reflexivity.
Qed.

Lemma read_dims_ok (ds rest : list Z) :
  (fix read_dims (n : nat) (buf : list Z) : result (list Z * list Z) :=
    match n with
    | O => Ok ([], buf)
    | S n' => let '(b, buf) := buf_read 1 buf in
              d <- unpack_B b ;;
              r <- read_dims n' buf ;;
              Ok (d :: fst r, snd r)
    end) (List.length ds) (ds ++ rest) = Ok (ds, rest).
Proof.
  induction ds as [|d ds IH]; [reflexivity|].
  cbn [List.length app]. unfold buf_read at 1. cbn [firstn skipn unpack_B bind].
  match goal with |- context [?X (Datatypes.length ds) (ds ++ rest)] =>
    replace (X (Datatypes.length ds) (ds ++ rest)) with (@Ok (list Z * list Z) (ds, rest))
      by (symmetry; exact IH) end.
  reflexivity.
Qed.

Lemma signed8_mod (v : Z) : -128 <= v <= 127 -> signed8 (v mod 256) = v.
Proof.
  intros Hv. unfold signed8. destruct (v mod 256 <? 128) eqn:E;
    rewrite ?Z.ltb_lt, ?Z.ltb_ge in E; Z.to_euclidean_division_equations; lia.
Qed.

Lemma str_bytes_length (s : string) : List.length (str_bytes s) = String.length s.
Proof.
  unfold str_bytes. rewrite length_map.
  induction s as [|c s IH]; simpl; [reflexivity|]. rewrite IH. reflexivity.
Qed.

Lemma bytes_to_string_str_bytes (s : string) : bytes_to_string (str_bytes s) = s.
Proof.
  unfold bytes_to_string, str_bytes. rewrite map_map.
  erewrite map_ext; [rewrite map_id; apply string_of_list_ascii_of_string|].
  intros c. simpl. rewrite Nat2Z.id. apply ascii_nat_embedding.
Qed.

Lemma utf8_decode_ascii (bs : list Z) :
  forallb (fun b => (0 <=? b) && (b <? 128)) bs = true -> utf8_decode bs = Some bs.
Proof.
  induction bs as [|b bs IH]; [reflexivity|].
  cbn [forallb]. intros H. apply andb_prop in H. destruct H as [Hb H].
  apply andb_prop in Hb. destruct Hb as [_ Hb].
  cbn [utf8_decode]. rewrite Hb, (IH H). reflexivity.
Qed.

Lemma utext_ascii (bs : list Z) :
  forallb (fun b => (0 <=? b) && (b <? 128)) bs = true -> utext bs = bytes_to_string bs.
Proof.
  intros H. unfold utext. f_equal.
  induction bs as [|b bs IH]; [reflexivity|].
  cbn [forallb] in H. apply andb_prop in H. destruct H as [Hb H].
  apply andb_prop in Hb. destruct Hb as [_ Hb].
  cbn [flat_map]. unfold utf8_encode_cp at 1. rewrite Hb. cbn [app]. rewrite (IH H). reflexivity.
Qed.

Lemma decode_utf8_ascii_ok (bs : list Z) :
  forallb (fun b => (0 <=? b) && (b <? 128)) bs = true ->
  decode_utf8 bs = Ok (bytes_to_string bs).
Proof.
  intros H. unfold decode_utf8, decode_utf8_cps. rewrite (utf8_decode_ascii bs H).
  cbn [bind]. rewrite (utext_ascii bs H). reflexivity.
Qed.

Lemma decode_utf8_str_bytes (s : string) :
  forallb (fun b => (0 <=? b) && (b <? 128)) (str_bytes s) = true ->
  decode_utf8 (str_bytes s) = Ok s.
Proof.
  intros H. rewrite (decode_utf8_ascii_ok _ H). f_equal. apply bytes_to_string_str_bytes.
Qed.

Lemma decode_utf8_cps_ascii (bs : list Z) :
  forallb (fun b => (0 <=? b) && (b <? 128)) bs = true -> decode_utf8_cps bs = Ok bs.
Proof. intros H. unfold decode_utf8_cps. rewrite (utf8_decode_ascii bs H). reflexivity. Qed.

Lemma upper_cp_ascii_char (uc : Z -> Z) (c : ascii) :
  (0 <=? Z.of_nat (nat_of_ascii c)) && (Z.of_nat (nat_of_ascii c) <? 128) = true ->
  upper_cp uc (Z.of_nat (nat_of_ascii c)) = Z.of_nat (nat_of_ascii (upper_ascii c)) /\
  (0 <=? Z.of_nat (nat_of_ascii (upper_ascii c))) &&
    (Z.of_nat (nat_of_ascii (upper_ascii c)) <? 128) = true.
Proof.
  destruct c as [[] [] [] [] [] [] [] []]; cbn; intros H;
    first [split; reflexivity | discriminate H].
Qed.

(** On ASCII text, [unicode.upper()] is [str.upper()], and the result is
    ASCII again. *)
Lemma uupper_str_bytes (uc : Z -> Z) (s : string) :
  forallb (fun b => (0 <=? b) && (b <? 128)) (str_bytes s) = true ->
  uupper uc (str_bytes s) = str_bytes (upper s) /\
  forallb (fun b => (0 <=? b) && (b <? 128)) (str_bytes (upper s)) = true.
Proof.
  induction s as [|c s IH]; [split; reflexivity|].
  change (str_bytes (String c s)) with (Z.of_nat (nat_of_ascii c) :: str_bytes s).
  change (str_bytes (upper (String c s)))
    with (Z.of_nat (nat_of_ascii (upper_ascii c)) :: str_bytes (upper s)).
  cbn [forallb]. intros H. apply andb_prop in H. destruct H as [Hc H].
  destruct (upper_cp_ascii_char uc c Hc) as [E1 E2].
  destruct (IH H) as [E3 E4].
  unfold uupper in *. cbn [map]. rewrite E1, E3, E2, E4. split; reflexivity.
Qed.

Lemma utext_str_bytes (s : string) :
  forallb (fun b => (0 <=? b) && (b <? 128)) (str_bytes s) = true ->
  utext (str_bytes s) = s.
Proof. intros H. rewrite (utext_ascii _ H). apply bytes_to_string_str_bytes. Qed.

(** A name of ASCII bytes, decoded and upper-cased by the reader, and
    upper-cased once more by [add_param]. *)
Lemma reader_name_ascii (uc : Z -> Z) (s : string) :
  forallb (fun b => (0 <=? b) && (b <? 128)) (str_bytes s) = true ->
  decode_utf8_cps (str_bytes s) = Ok (str_bytes s) /\
  utext (uupper uc (str_bytes s)) = upper s /\
  utext (uupper uc (uupper uc (str_bytes s))) = upper (upper s).
Proof.
  intros H. destruct (uupper_str_bytes uc s H) as [E1 H1].
  destruct (uupper_str_bytes uc (upper s) H1) as [E2 H2].
  split; [exact (decode_utf8_cps_ascii _ H)|].
  rewrite E1, E2, !utext_str_bytes by assumption. split; reflexivity.
Qed.

Lemma str_encode_utf8_ascii (s : string) :
  forallb (fun b => (0 <=? b) && (b <? 128)) (str_bytes s) = true ->
  str_encode_utf8 s = Ok s.
Proof.
  unfold str_encode_utf8, str_bytes. intros H.
  replace (forallb _ (list_ascii_of_string s)) with true; [reflexivity|symmetry].
  revert H. induction (list_ascii_of_string s) as [|c l IH]; cbn [map forallb]; [reflexivity|].
  intros H. apply andb_prop in H. destruct H as [H1 H2].
  rewrite (IH H2), andb_true_r. apply andb_prop in H1. destruct H1 as [_ H1].
  apply Z.ltb_lt in H1. apply Nat.ltb_lt. lia.
Qed.

Lemma param_read_spec (name desc : string) (bpe : Z) (ds data rest : list Z) :
  -128 <= bpe <= 127 -> (List.length ds <= 255)%nat ->
  List.length data = Z.to_nat (total_bytes (mkParam name desc bpe ds data)) ->
  forallb (fun b => (0 <=? b) && (b <? 128)) (str_bytes desc) = true ->
  param_read name ((bpe mod 256) :: Z.of_nat (List.length ds) :: ds ++ data ++
                   Z.of_nat (String.length desc) :: str_bytes desc ++ rest)
  = Ok (mkParam name desc bpe ds data).
Proof.
  intros Hb Hd Hl Ha.
  unfold param_read. unfold buf_read at 1 2. cbn [firstn skipn unpack_b unpack_B bind].
  rewrite signed8_mod by exact Hb. rewrite Nat2Z.id.
  match goal with |- context [?X (Datatypes.length ds) (ds ++ ?r)] =>
    replace (X (Datatypes.length ds) (ds ++ r)) with (@Ok (list Z * list Z) (ds, r))
      by (symmetry; exact (read_dims_ok ds r)) end.
  cbn [bind].
  change (total_bytes (mkParam name EmptyString bpe ds [])) with
         (total_bytes (mkParam name desc bpe ds data)).
  destruct (total_bytes (mkParam name desc bpe ds data) =? 0) eqn:Et.
  - apply Z.eqb_eq in Et. rewrite Et in Hl. simpl in Hl.
    destruct data; [|discriminate]. cbn [app].
    unfold buf_read at 1. cbn [firstn skipn unpack_B bind].
    destruct (Z.of_nat (String.length desc) =? 0) eqn:Ed.
    + destruct desc; [reflexivity|discriminate].
    + rewrite buf_read_app by (rewrite Nat2Z.id; apply str_bytes_length).
      rewrite decode_utf8_str_bytes by exact Ha. reflexivity.
  - rewrite buf_read_app by exact Hl.
    unfold buf_read at 1. cbn [firstn skipn unpack_B bind].
    destruct (Z.of_nat (String.length desc) =? 0) eqn:Ed.
    + destruct desc; [reflexivity|discriminate].
    + rewrite buf_read_app by (rewrite Nat2Z.id; apply str_bytes_length).
      rewrite decode_utf8_str_bytes by exact Ha. reflexivity.
Qed.

Lemma upper_ascii_idem (c : ascii) : upper_ascii (upper_ascii c) = upper_ascii c.
Proof. destruct c as [[] [] [] [] [] [] [] []]; reflexivity. Qed.

Lemma upper_idem (s : string) : upper (upper s) = upper s.
Proof. induction s as [|c s IH]; simpl; [reflexivity|]. rewrite upper_ascii_idem, IH. reflexivity. Qed.

Lemma pack_Bs_ok (ds : list Z) : Forall (fun d => 0 <= d <= 255) ds -> pack_Bs ds = Ok ds.
Proof.
  induction 1 as [|d ds Hd _ IH]; [reflexivity|].
  simpl. unfold pack_B, pack_int.
  replace ((0 <=? d) && (d <=? 255)) with true by (symmetry; apply andb_true_iff; split; apply Z.leb_le; lia).
  cbn [le_bytes bind]. rewrite IH. cbn [bind]. rewrite Z.mod_small by lia. reflexivity.
Qed.

Lemma fold_mul_nonneg (ds : list Z) :
  forall a, 0 <= a -> Forall (fun d => 0 <= d <= 255) ds -> 0 <= fold_left Z.mul ds a.
Proof.
  induction ds as [|d ds IH]; intros a Ha Hf; simpl; [exact Ha|].
  inversion Hf; subst. apply IH; [nia|assumption].
Qed.

Lemma param_write_bytes (G : Z) (p : param) (out : list Z) :
  1 <= G <= 127 ->
  (1 <= String.length (pname p) <= 127)%nat ->
  (String.length (pdesc p) <= 255)%nat ->
  -128 <= bytes_per_element p <= 127 ->
  Forall (fun d => 0 <= d <= 255) (dimensions p) ->
  (List.length (dimensions p) <= 255)%nat ->
  List.length (pbytes p) = Z.to_nat (total_bytes p) ->
  param_binary_size p - 2 - Z.of_nat (String.length (pname p)) <= 32767 ->
  param_write G p out =
  (Ok tt, out ++ (Z.of_nat (String.length (pname p)) :: G :: str_bytes (pname p) ++
                  le_bytes 2 (param_binary_size p - 2 - Z.of_nat (String.length (pname p))) ++
                  (bytes_per_element p mod 256) :: Z.of_nat (List.length (dimensions p)) ::
                  dimensions p ++ pbytes p ++
                  Z.of_nat (String.length (pdesc p)) :: str_bytes (pdesc p))).
Proof.
  intros HG HL HD Hb Hds Hnd Hl Ho.
  assert (Hte : 0 <= total_bytes p).
  { unfold total_bytes. apply Z.mul_nonneg_nonneg; [apply fold_mul_nonneg; [lia|exact Hds]|lia]. }
  assert (Hbs : 0 <= param_binary_size p - 2 - Z.of_nat (String.length (pname p))).
  { unfold param_binary_size. lia. }
  unfold param_write. rewrite !str_bytes_length.
  unfold pack_bb, pack_b, pack_h, pack_B, pack_int.
  repeat match goal with
    | |- context [(?a <=? ?b)] =>
        replace (a <=? b) with true by (symmetry; apply Z.leb_le; lia)
    end.
  rewrite pack_Bs_ok by exact Hds.
  cbn [andb le_bytes bind emit_r].
  rewrite (Z.mod_small (Z.of_nat (String.length (pname p)))) by lia.
  rewrite (Z.mod_small G) by lia.
  rewrite (Z.mod_small (Z.of_nat (List.length (dimensions p)))) by lia.
  rewrite (Z.mod_small (Z.of_nat (String.length (pdesc p)))) by lia.
  unfold st_bind, emit, st_ret.
  destruct (pbytes p) as [|b0 bs0] eqn:Eb; rewrite <- ?app_assoc; reflexivity.
Qed.

Lemma signed16_le_bytes (v : Z) : -32768 <= v <= 32767 ->
  unpack_h (le_bytes 2 v) = Ok v.
Proof.
  intros Hv. cbn [le_bytes unpack_h]. f_equal. unfold signed16, uint16_le.
  destruct (_ <? 32768) eqn:E; rewrite ?Z.ltb_lt, ?Z.ltb_ge in E;
    Z.to_euclidean_division_equations; lia.
Qed.

Lemma param_write_parse (uc : Z -> Z) (G : Z) (p : param) (out : list Z) :
  1 <= G <= 127 -> param_writable p ->
  exists bs,
    param_write G p out = (Ok tt, out ++ bs) /\
    Z.of_nat (List.length bs) = param_binary_size p /\
    forall rest, parse_record uc (bs ++ rest) = Ok (Some (RParam G (norm_param p), rest)).
Proof.
  intros HG (HL & Han & Had & HD & Hb & Hds & Hnd & Hl & Ho).
  eexists. split; [apply param_write_bytes; assumption|].
  assert (Hte : 0 <= total_bytes p).
  { unfold total_bytes. apply Z.mul_nonneg_nonneg; [apply fold_mul_nonneg; [lia|exact Hds]|lia]. }
  set (L := Z.of_nat (String.length (pname p))).
  set (off := param_binary_size p - 2 - L).
  assert (Hoff : 0 <= off) by (unfold off, L, param_binary_size; lia).
  assert (Hlen : Z.of_nat (List.length (L :: G :: str_bytes (pname p) ++ le_bytes 2 off ++
                  (bytes_per_element p mod 256) :: Z.of_nat (List.length (dimensions p)) ::
                  dimensions p ++ pbytes p ++
                  Z.of_nat (String.length (pdesc p)) :: str_bytes (pdesc p)))
                 = param_binary_size p).
  { cbn [List.length le_bytes]. repeat (rewrite ?length_app; cbn [List.length]).
    rewrite ?str_bytes_length, ?Hl.
    unfold param_binary_size, off, L. lia. }
  split; [exact Hlen|]. intros rest.
  unfold parse_record.
  unfold buf_read at 1. cbn [firstn skipn app].
  assert (HsL : signed8 L = L) by (unfold signed8, L; destruct (_ <? 128) eqn:E;
                                   rewrite ?Z.ltb_lt, ?Z.ltb_ge in E; lia).
  assert (HsG : signed8 G = G) by (unfold signed8; destruct (G <? 128) eqn:E;
                                   rewrite ?Z.ltb_lt, ?Z.ltb_ge in E; lia).
  rewrite HsL, HsG.
  replace ((G =? 0) || (L =? 0)) with false
    by (symmetry; apply orb_false_iff; split; apply Z.eqb_neq; unfold L; lia).
  replace (Z.to_nat (Z.abs L)) with (List.length (str_bytes (pname p)))
    by (rewrite str_bytes_length; unfold L; rewrite Z.abs_eq by lia; rewrite Nat2Z.id; reflexivity).
  rewrite <- (app_assoc (str_bytes (pname p))).
  rewrite (buf_read_app _ (str_bytes (pname p))) by reflexivity.
  destruct (reader_name_ascii uc (pname p) Han) as (E1 & E2 & E3).
  rewrite E1. cbn [bind]. cbv zeta.
  rewrite <- (app_assoc (le_bytes 2 off)).
  rewrite (buf_read_app 2 (le_bytes 2 off)) by reflexivity.
  rewrite signed16_le_bytes by lia. cbn [bind].
  replace (0 <? G) with true by (symmetry; apply Z.ltb_lt; lia).
  rewrite E3, upper_idem.
  rewrite app_comm_cons, app_comm_cons, <- !app_assoc. cbn [app].
  rewrite param_read_spec by assumption.
  cbn [bind]. unfold norm_param.
  unfold py_slice_from.
  replace (0 <=? 2 + Z.abs L + off) with true by (symmetry; apply Z.leb_le; lia).
  rewrite Z.abs_eq by (unfold L; lia).
  replace (2 + L + off) with (param_binary_size p) by (unfold off; lia).
  rewrite <- Hlen, Nat2Z.id.
  rewrite !app_comm_cons, !app_assoc.
  rewrite !app_comm_cons, !app_assoc in *.
  rewrite skipn_app, skipn_all, Nat.sub_diag. reflexivity.
Qed.

(** Param.write emits a record of exactly [binary_size()] bytes, which the
    directory loop of [Reader.__init__] parses back as a parameter of the
    same group (name upper-cased, the rest unchanged), resuming right after
    the record. *)
Theorem param_write_then_parse (uc : Z -> Z) (G : Z) (p : param) (out rest : list Z) :
  1 <= G <= 127 -> param_writable p ->
  exists bs,
    param_write G p out = (Ok tt, out ++ bs) /\
    Z.of_nat (List.length bs) = param_binary_size p /\
    parse_record uc (bs ++ rest) = Ok (Some (RParam G (norm_param p), rest)).
Proof.
  intros HG Hp. destruct (param_write_parse uc G p out HG Hp) as (bs & H1 & H2 & H3).
  exists bs. split; [exact H1|]. split; [exact H2|]. apply H3.
Qed.

Lemma param_write_then_parse_witness :
  param_writable (mkParam "USED" EmptyString 2 [] [1; 0]) /\
  forall uc : Z -> Z,
  exists bs,
    param_write 1 (mkParam "USED" EmptyString 2 [] [1; 0]) [] = (Ok tt, [] ++ bs) /\
    Z.of_nat (List.length bs) = param_binary_size (mkParam "USED" EmptyString 2 [] [1; 0]) /\
    parse_record uc (bs ++ [0; 0]) =
      Ok (Some (RParam 1 (norm_param (mkParam "USED" EmptyString 2 [] [1; 0])), [0; 0])).
Proof.
  assert (Hw : param_writable (mkParam "USED" EmptyString 2 [] [1; 0])).
  { unfold param_writable; cbn; repeat split; try lia; try reflexivity; try constructor. }
  split; [exact Hw|]. intros uc.
  apply (param_write_then_parse uc 1 _ [] [0; 0]); [lia | exact Hw].
Defined.

Lemma group_write_bytes (G : Z) (g : group) (n d : string) (out : list Z) :
  gname g = Some n -> gdesc g = Some d ->
  1 <= G <= 128 ->
  (String.length n <= 127)%nat ->
  (String.length d <= 255)%nat ->
  group_write G g out =
  params_write G (gparams g)
    (out ++ (Z.of_nat (String.length n) :: (- G) mod 256 :: str_bytes n ++
             le_bytes 2 (3 + Z.of_nat (String.length d)) ++
             Z.of_nat (String.length d) :: str_bytes d)).
Proof.
  intros Hn Hd HG HL HD.
  unfold group_write. rewrite Hn, Hd.
  unfold pack_bb, pack_b, pack_h, pack_B, pack_int.
  repeat match goal with
    | |- context [(?a <=? ?b)] =>
        replace (a <=? b) with true by (symmetry; apply Z.leb_le; lia)
    end.
  cbn [andb le_bytes bind emit_r].
  rewrite (Z.mod_small (Z.of_nat (String.length n))) by lia.
  rewrite (Z.mod_small (Z.of_nat (String.length d))) by lia.
  unfold st_bind, emit. rewrite <- !app_assoc. reflexivity.
Qed.

Lemma group_write_parse (uc : Z -> Z) (G : Z) (g : group) (n d : string) (out : list Z) :
  gname g = Some n -> gdesc g = Some d ->
  1 <= G <= 128 ->
  (1 <= String.length n <= 127)%nat ->
  (String.length d <= 255)%nat ->
  forallb (fun b => (0 <=? b) && (b <? 128)) (str_bytes n) = true ->
  exists hdr,
    group_write G g out = params_write G (gparams g) (out ++ hdr) /\
    List.length hdr = (5 + String.length n + String.length d)%nat /\
    forall rest, parse_record uc (hdr ++ rest) = Ok (Some (RGroup G (upper n) d, rest)).
Proof.
  intros Hn Hd HG HL HD Han.
  eexists. split; [apply (group_write_bytes G g n d); first [assumption | lia]|].
  split.
  { cbn [List.length]. rewrite !length_app, !str_bytes_length. cbn [List.length le_bytes]. rewrite ?str_bytes_length. lia. }
  intros rest. unfold parse_record.
  unfold buf_read at 1. cbn [firstn skipn app].
  set (L := Z.of_nat (String.length n)).
  set (D := Z.of_nat (String.length d)).
  assert (HsL : signed8 L = L) by (unfold signed8, L; destruct (_ <? 128) eqn:E;
                                   rewrite ?Z.ltb_lt, ?Z.ltb_ge in E; lia).
  assert (HsG : signed8 ((- G) mod 256) = - G) by (apply signed8_mod; lia).
  rewrite HsL, HsG.
  replace ((- G =? 0) || (L =? 0)) with false
    by (symmetry; apply orb_false_iff; split; apply Z.eqb_neq; unfold L; lia).
  replace (Z.to_nat (Z.abs L)) with (List.length (str_bytes n))
    by (rewrite str_bytes_length; unfold L; rewrite Z.abs_eq by lia; rewrite Nat2Z.id; reflexivity).
  rewrite <- (app_assoc (str_bytes n)).
  rewrite (buf_read_app _ (str_bytes n)) by reflexivity.
  destruct (reader_name_ascii uc n Han) as (E1 & E2 & E3).
  rewrite E1. cbn [bind]. cbv zeta. rewrite E2.
  rewrite <- (app_assoc (le_bytes 2 (3 + D))).
  rewrite (buf_read_app 2 (le_bytes 2 (3 + D))) by reflexivity.
  rewrite signed16_le_bytes by (unfold D; lia). cbn [bind].
  replace (0 <? - G) with false by (symmetry; apply Z.ltb_ge; lia).
  cbn [app]. unfold buf_read at 1. cbn [firstn skipn unpack_B bind].
  rewrite (buf_read_app _ (str_bytes d)) by (rewrite str_bytes_length; unfold D; lia).
  cbn [fst]. rewrite bytes_to_string_str_bytes.
  replace (Z.abs (- G)) with G by lia.
  replace (if D =? 0 then EmptyString else d) with d
    by (destruct (D =? 0) eqn:E; [apply Z.eqb_eq in E; unfold D in E;
          destruct d; [reflexivity|cbn in E; lia] | reflexivity]).
  unfold py_slice_from.
  replace (0 <=? 2 + Z.abs L + (3 + D)) with true by (symmetry; apply Z.leb_le; lia).
  rewrite Z.abs_eq by (unfold L; lia).
  replace (Z.to_nat (2 + L + (3 + D))) with
    (List.length (L :: (- G) mod 256 :: str_bytes n ++ le_bytes 2 (3 + D) ++ D :: str_bytes d)).
  2: { cbn [List.length]. rewrite !length_app, !str_bytes_length. cbn [List.length le_bytes].
       rewrite ?str_bytes_length. unfold L, D. lia. }
  rewrite !app_comm_cons, !app_assoc.
  rewrite skipn_app, skipn_all, Nat.sub_diag. reflexivity.
Qed.

Lemma parse_record_nil (uc : Z -> Z) : parse_record uc [] = Err StructError.
Proof. reflexivity. Qed.

Lemma read_dir_chunks (uc : Z -> Z) (rcs : list dir_record) (chunks : list (list Z)) (tail : list Z)
    (fuel : nat) (m : manager) :
  Forall2 (fun rc c => forall r, parse_record uc (c ++ r) = Ok (Some (rc, r))) rcs chunks ->
  (tail = [] \/ parse_record uc tail = Ok None) ->
  (List.length rcs < fuel)%nat ->
  read_dir uc fuel (List.concat chunks ++ tail) m =
  match apply_records rcs m with
  | (Ok _, m') => (Ok true, m')
  | (Err e, m') => (Err e, m')
  end.
Proof.
  intros Hf. revert fuel m. induction Hf as [|rc c rcs' cs' Hc Hf IH]; intros fuel m Ht Hfuel.
  - destruct fuel as [|fuel]; [cbn in Hfuel; lia|].
    cbn [List.concat app read_dir apply_records].
    destruct Ht as [->|Ht]; [reflexivity|].
    destruct tail as [|b tl]; [reflexivity|]. rewrite Ht. reflexivity.
  - destruct fuel as [|fuel]; [cbn in Hfuel; lia|].
    cbn [List.concat read_dir apply_records]. rewrite <- app_assoc.
    destruct c as [|b c'].
    { specialize (Hc []). rewrite app_nil_r, parse_record_nil in Hc. discriminate. }
    rewrite <- app_comm_cons. rewrite app_comm_cons, Hc.
    unfold st_bind. destruct (apply_record rc m) as [[u|e] m1]; [|reflexivity].
    apply IH; [exact Ht|cbn in Hfuel; lia].
Qed.

Lemma params_write_parse (uc : Z -> Z) (G : Z) (ps : list (string * param)) (out : list Z) :
  1 <= G <= 127 -> Forall (fun e => param_writable (snd e)) ps ->
  exists chunks,
    params_write G ps out = (Ok tt, out ++ List.concat chunks) /\
    Forall2 (fun e c => Z.of_nat (List.length c) = param_binary_size (snd e) /\
                        forall r, parse_record uc (c ++ r) = Ok (Some (RParam G (norm_param (snd e)), r)))
            ps chunks.
Proof.
  intros HG Hps. revert out. induction Hps as [|[k p] ps Hp Hps IH]; intros out.
  - exists []. split; [cbn; rewrite app_nil_r; reflexivity|constructor].
  - destruct (param_write_parse uc G p out HG Hp) as (bs & H1 & H2 & H3).
    destruct (IH (out ++ bs)) as (chunks & H4 & H5).
    exists (bs :: chunks). split.
    + cbn [params_write]. unfold st_bind. rewrite H1, H4. cbn [List.concat].
      rewrite app_assoc. reflexivity.
    + constructor; [split; assumption|exact H5].
Qed.

Lemma fold_add_sizes (ps : list (string * param)) (chunks : list (list Z)) (a : Z) :
  Forall2 (fun e c => Z.of_nat (List.length c) = param_binary_size (snd e)) ps chunks ->
  fold_left Z.add (map (fun '(_, p) => param_binary_size p) ps) a =
  a + Z.of_nat (List.length (List.concat chunks)).
Proof.
  intros Hf. revert a. induction Hf as [|[k p] c ps cs Hc Hf IH]; intros a.
  - cbn. lia.
  - cbn [map fold_left List.concat]. rewrite IH, length_app. cbn [snd] in Hc. lia.
Qed.

Lemma apply_param_records (hd : header) (un : string) (G : Z) (ps : list param) (grp : group) :
  apply_records (map (fun p => RParam G (norm_param p)) ps)
                (mkManager hd [grp] [(KName un, 0%nat); (KId G, 0%nat)]) =
  (Ok tt, mkManager hd [fold_left group_add_param ps grp] [(KName un, 0%nat); (KId G, 0%nat)]).
Proof.
  revert grp. induction ps as [|p ps IH]; intros grp; [reflexivity|].
  cbn [map apply_records fold_left]. unfold st_bind at 1.
  cbn [apply_record]. unfold st_bind at 1. unfold setdefault_group.
  cbn [groups dict_get]. rewrite key_eqb_KId_KName. cbn [key_eqb]. rewrite Z.eqb_refl.
  cbn [arena update_nth set_arena mheader groups].
  replace (group_add_param grp (norm_param p)) with (group_add_param grp p).
  - apply IH.
  - unfold group_add_param, norm_param. cbn [pname pdesc bytes_per_element dimensions pbytes].
    rewrite upper_idem. reflexivity.
Qed.

Lemma apply_group_record_empty (hd : header) (G : Z) (un d : string) :
  apply_record (RGroup G un d) (mkManager hd [] []) =
  (Ok tt, mkManager hd [mkGroup (Some (upper un)) (Some d) []]
                    [(KName (upper un), 0%nat); (KId G, 0%nat)]).
Proof. reflexivity. Qed.

(** Group.write of a group with an ASCII name and an ASCII description
    whose parameters all satisfy [param_writable], for a group id 1 to
    127, emits exactly
    [Group.binary_size()] bytes; reading them back with the directory loop
    of [Reader.__init__] into an empty store (followed by nothing or by a
    terminating record) ends normally with one group object, indexed by
    its upper-cased name and by its id, that has the same description and
    holds the written parameters re-added in write order by
    [Group.add_param]. *)
Theorem group_write_read_back (uc : Z -> Z) (hd : header) (G : Z) (g : group) (n d : string)
    (tail : list Z) (fuel : nat) :
  gname g = Some n -> gdesc g = Some d ->
  1 <= G <= 127 ->
  (1 <= String.length n <= 127)%nat ->
  (String.length d <= 255)%nat ->
  forallb (fun b => (0 <=? b) && (b <? 128)) (str_bytes n) = true ->
  forallb (fun b => (0 <=? b) && (b <? 128)) (str_bytes d) = true ->
  Forall (fun e => param_writable (snd e)) (gparams g) ->
  (tail = [] \/ parse_record uc tail = Ok None) ->
  (S (List.length (gparams g)) < fuel)%nat ->
  exists bs,
    group_write G g [] = (Ok tt, bs) /\
    group_binary_size g = Ok (Z.of_nat (List.length bs)) /\
    read_dir uc fuel (bs ++ tail) (mkManager hd [] []) =
      (Ok true,
       mkManager hd [fold_left group_add_param (map snd (gparams g))
                               (mkGroup (Some (upper n)) (Some d) [])]
                 [(KName (upper n), 0%nat); (KId G, 0%nat)]).
Proof.
  intros Hn Hd HG HL HD Han Had Hps Ht Hfuel.
  destruct (group_write_parse uc G g n d [] Hn Hd ltac:(lia) HL HD Han) as (hdr & Hw & Hlen & Hp).
  destruct (params_write_parse uc G (gparams g) ([] ++ hdr) HG Hps) as (chunks & Hw' & Hc).
  exists (hdr ++ List.concat chunks). split; [|split].
  - rewrite Hw, Hw'. reflexivity.
  - unfold group_binary_size. rewrite Hn, Hd.
    rewrite (str_encode_utf8_ascii n Han), (str_encode_utf8_ascii d Had). cbn [bind].
    rewrite (fold_add_sizes (gparams g) chunks 0).
    2: { eapply Forall2_impl; [|exact Hc]. intros e c [H _]. exact H. }
    rewrite length_app, Hlen. f_equal. lia.
  - change (hdr ++ List.concat chunks) with (List.concat (hdr :: chunks)).
    rewrite (read_dir_chunks uc (RGroup G (upper n) d ::
                              map (fun p => RParam G (norm_param p)) (map snd (gparams g)))
                             (hdr :: chunks) tail fuel).
    + cbn [apply_records]. unfold st_bind at 1.
      rewrite apply_group_record_empty, upper_idem.
      rewrite apply_param_records. reflexivity.
    + constructor; [exact Hp|].
      rewrite map_map. clear -Hc. induction Hc as [|e c ps cs [_ H] Hc IH]; constructor; [exact H|exact IH].
    + exact Ht.
    + cbn [List.length]. rewrite !length_map. lia.
Qed.

(** Group.write with a name of 1 to 127 ASCII characters and a description
    of at most 255 bytes, for a group id 1 to 128, first emits a group
    header record of 5 + len(name) + len(desc) bytes and then the records
    of its parameters; the directory loop of [Reader.__init__] parses that
    header back as the group of the same id, with the upper-cased name and
    the same description, and resumes right after it, at the first
    parameter record. *)
Theorem group_write_then_parse (uc : Z -> Z) (G : Z) (g : group) (n d : string) (out rest : list Z) :
  gname g = Some n -> gdesc g = Some d ->
  1 <= G <= 128 ->
  (1 <= String.length n <= 127)%nat ->
  (String.length d <= 255)%nat ->
  forallb (fun b => (0 <=? b) && (b <? 128)) (str_bytes n) = true ->
  exists hdr,
    group_write G g out = params_write G (gparams g) (out ++ hdr) /\
    List.length hdr = (5 + String.length n + String.length d)%nat /\
    parse_record uc (hdr ++ rest) = Ok (Some (RGroup G (upper n) d, rest)).
Proof.
  intros Hn Hd HG HL HD Han.
  destruct (group_write_parse uc G g n d out Hn Hd HG HL HD Han) as (hdr & H1 & H2 & H3).
  exists hdr. split; [exact H1|]. split; [exact H2|]. apply H3.
Qed.

Lemma group_write_then_parse_witness :
  (1 <= String.length "POINT" <= 127)%nat /\
  forall uc : Z -> Z,
  exists hdr,
    group_write 1 (mkGroup (Some "POINT") (Some "3-D point parameters") []) [] =
      params_write 1 [] ([] ++ hdr) /\
    List.length hdr = (5 + String.length "POINT" + String.length "3-D point parameters")%nat /\
    parse_record uc (hdr ++ [0; 0]) =
      Ok (Some (RGroup 1 (upper "POINT") "3-D point parameters", [0; 0])).
Proof.
  split; [cbn; lia|]. intros uc.
  apply (group_write_then_parse uc 1 (mkGroup (Some "POINT") (Some "3-D point parameters") [])
           "POINT" "3-D point parameters");
    try reflexivity; try (cbn; lia).
Defined.

(** The [while bytes:] loop of [Reader.__init__] on a byte string made of
    records that each parse exactly, followed by nothing or by a record
    whose group id or name length is 0, given more passes than records,
    has the effect of applying the parsed records to the store in order:
    it returns normally when all of them apply, and otherwise raises the
    error of the first record that fails (as [add_group] does on a second
    group whose name is already taken), with the store as it is then. *)
Theorem read_dir_records (uc : Z -> Z) (rcs : list dir_record) (chunks : list (list Z)) (tail : list Z)
    (fuel : nat) (m : manager) :
  Forall2 (fun rc c => forall r, parse_record uc (c ++ r) = Ok (Some (rc, r))) rcs chunks ->
  (tail = [] \/ parse_record uc tail = Ok None) ->
  (List.length rcs < fuel)%nat ->
  read_dir uc fuel (List.concat chunks ++ tail) m =
  match apply_records rcs m with
  | (Ok _, m') => (Ok true, m')
  | (Err e, m') => (Err e, m')
  end.
Proof. apply read_dir_chunks. Qed.

Lemma read_dir_records_witness :
  Nat.lt (List.length [RGroup 1 "POINT" EmptyString;
                       RParam 1 (mkParam "USED" EmptyString 2 [] [1; 0])]) 3 /\
  forall uc : Z -> Z,
  read_dir uc 3 (List.concat [[5; 255; 80; 79; 73; 78; 84; 3; 0; 0];
                           [4; 1; 85; 83; 69; 68; 7; 0; 2; 0; 1; 0; 0]] ++ [0; 0])
           (mkManager default_header [] []) =
  match apply_records [RGroup 1 "POINT" EmptyString;
                       RParam 1 (mkParam "USED" EmptyString 2 [] [1; 0])]
                      (mkManager default_header [] []) with
  | (Ok _, m') => (Ok true, m')
  | (Err e, m') => (Err e, m')
  end.
Proof.
  split; [cbn; lia|]. intros uc.
  apply read_dir_records.
  - constructor; [intros r; vm_compute; reflexivity|].
    constructor; [intros r; vm_compute; reflexivity|constructor].
  - right. reflexivity.
  - cbn. lia.
Defined.

Lemma group_write_read_back_witness :
  (S (List.length (gparams example_point_group)) < 6)%nat /\
  forall uc : Z -> Z,
  exists bs,
    group_write 1 example_point_group [] = (Ok tt, bs) /\
    group_binary_size example_point_group = Ok (Z.of_nat (List.length bs)) /\
    read_dir uc 6 (bs ++ [0; 0]) (mkManager default_header [] []) =
      (Ok true,
       mkManager default_header
                 [fold_left group_add_param (map snd (gparams example_point_group))
                            (mkGroup (Some (upper "POINT")) (Some EmptyString) [])]
                 [(KName (upper "POINT"), 0%nat); (KId 1, 0%nat)]).
Proof.
  split; [cbn; lia|]. intros uc.
  apply group_write_read_back; try reflexivity; try (cbn; lia).
  - repeat constructor; cbn [snd]; unfold param_writable; cbn; repeat split;
      try lia; try reflexivity; try constructor.
  - right. reflexivity.
Defined.

Lemma string_append_assoc (a b c : string) :
  ((a ++ b) ++ c)%string = (a ++ (b ++ c))%string.
Proof. induction a as [|x a IH]; cbn; [reflexivity|rewrite IH; reflexivity]. Qed.

Lemma upper_app (a b : string) : upper (a ++ b)%string = (upper a ++ upper b)%string.
Proof. induction a as [|c a IH]; cbn; [reflexivity|rewrite IH; reflexivity]. Qed.

Lemma upper_ascii_sep (c x : ascii) :
  (c = "."%char \/ c = ":"%char) -> Ascii.eqb (upper_ascii x) c = Ascii.eqb x c.
Proof.
  intros Hc. destruct x as [b0 b1 b2 b3 b4 b5 b6 b7].
  destruct Hc as [->| ->];
    destruct b0, b1, b2, b3, b4, b5, b6, b7; reflexivity.
Qed.

Lemma split_once_upper (c : ascii) (s : string) :
  (c = "."%char \/ c = ":"%char) ->
  split_once c (upper s) = option_map (fun '(a, b) => (upper a, upper b)) (split_once c s).
Proof.
  intros Hc. induction s as [|x s IH]; [reflexivity|].
  cbn [upper split_once]. rewrite upper_ascii_sep by exact Hc.
  destruct (Ascii.eqb x c); [reflexivity|].
  rewrite IH. destruct (split_once c s) as [[a b]|]; reflexivity.
Qed.

Lemma split_once_app (c : ascii) (s t : string) :
  split_once c s = None -> split_once c (s ++ String c t)%string = Some (s, t).
Proof.
  intros Hs. induction s as [|x s IH]; cbn [append split_once].
  - rewrite Ascii.eqb_refl. reflexivity.
  - cbn [split_once] in Hs. destruct (Ascii.eqb x c); [discriminate|].
    destruct (split_once c s) as [[? ?]|]; [discriminate|]. rewrite IH by reflexivity. reflexivity.
Qed.

Lemma split_once_app_none (c : ascii) (s t : string) :
  split_once c s = None -> split_once c t = None -> split_once c (s ++ t)%string = None.
Proof.
  intros Hs Ht. induction s as [|x s IH]; cbn [append split_once]; [exact Ht|].
  cbn [split_once] in Hs. destruct (Ascii.eqb x c); [discriminate|].
  destruct (split_once c s) as [[? ?]|]; [discriminate|]. rewrite IH by reflexivity. reflexivity.
Qed.

Lemma manager_get_colon (m : manager) (gn pn : string) :
  split_once "." gn = None -> split_once ":" gn = None -> split_once "." pn = None ->
  manager_get m (KName (gn ++ ":" ++ pn)) =
  option_map GotParam (get_param m (upper gn) (upper pn)).
Proof.
  intros H1 H2 H3.
  assert (U1 : split_once "." (upper gn) = None)
    by (rewrite split_once_upper, H1 by (left; reflexivity); reflexivity).
  assert (U2 : split_once ":" (upper gn) = None)
    by (rewrite split_once_upper, H2 by (right; reflexivity); reflexivity).
  assert (U3 : split_once "." (upper pn) = None)
    by (rewrite split_once_upper, H3 by (left; reflexivity); reflexivity).
  unfold manager_get. rewrite upper_app.
  change (upper (":" ++ pn)) with (String ":" (upper pn)).
  rewrite split_once_app_none; [|exact U1|cbn [split_once]; rewrite U3; reflexivity].
  rewrite split_once_app by exact U2.
  unfold get_param.
  destruct (dict_get key_eqb (KName (upper gn)) (groups m)) as [r|]; [|reflexivity].
  destruct (nth_error (arena m) r) as [g|]; reflexivity.
Qed.

Lemma manager_get_dot (m : manager) (gn pn : string) :
  split_once "." gn = None -> split_once ":" gn = None ->
  manager_get m (KName (gn ++ "." ++ pn)) =
  option_map GotParam (get_param m (upper gn) (upper pn)).
Proof.
  intros H1 H2.
  assert (U1 : split_once "." (upper gn) = None)
    by (rewrite split_once_upper, H1 by (left; reflexivity); reflexivity).
  assert (U2 : split_once ":" (upper gn) = None)
    by (rewrite split_once_upper, H2 by (right; reflexivity); reflexivity).
  unfold manager_get. rewrite upper_app.
  change (upper ("." ++ pn)) with (String "." (upper pn)).
  rewrite split_once_app by exact U1. rewrite U2.
  unfold get_param.
  destruct (dict_get key_eqb (KName (upper gn)) (groups m)) as [r|]; [|reflexivity].
  destruct (nth_error (arena m) r) as [g|]; reflexivity.
Qed.

Lemma manager_get_colon_dot (m : manager) (gn pn q : string) :
  split_once "." gn = None -> split_once ":" gn = None -> split_once "." pn = None ->
  manager_get m (KName (gn ++ ":" ++ pn ++ "." ++ q)) =
  option_map GotParam (get_param m (upper gn) (upper pn)).
Proof.
  intros H1 H2 H3.
  assert (U1 : split_once "." (upper gn) = None)
    by (rewrite split_once_upper, H1 by (left; reflexivity); reflexivity).
  assert (U2 : split_once ":" (upper gn) = None)
    by (rewrite split_once_upper, H2 by (right; reflexivity); reflexivity).
  assert (U3 : split_once "." (upper pn) = None)
    by (rewrite split_once_upper, H3 by (left; reflexivity); reflexivity).
  assert (U4 : split_once "." (upper gn ++ String ":" (upper pn)) = None).
  { apply split_once_app_none; [exact U1|]. cbn [split_once]. rewrite U3. reflexivity. }
  unfold manager_get. rewrite !upper_app.
  change (upper ":") with ":"%string. change (upper ".") with "."%string.
  replace (upper gn ++ ":" ++ upper pn ++ "." ++ upper q)%string
    with ((upper gn ++ String ":" (upper pn)) ++ String "." (upper q))%string
    by (rewrite string_append_assoc; reflexivity).
  rewrite split_once_app by exact U4.
  rewrite split_once_app by exact U2.
  unfold get_param.
  destruct (dict_get key_eqb (KName (upper gn)) (groups m)) as [r|]; [|reflexivity].
  destruct (nth_error (arena m) r) as [g|]; reflexivity.
Qed.

Lemma slices_concat (l n : nat) (bs : list Z) :
  List.length bs = (l * n)%nat ->
  List.concat (map (fun i => firstn l (skipn (i * l) bs)) (seq 0 n)) = bs.
Proof.
  revert bs. induction n as [|n IH]; intros bs Hl.
  - rewrite Nat.mul_0_r in Hl. destruct bs; [reflexivity|discriminate].
  - cbn [seq map List.concat]. rewrite <- seq_shift, map_map.
    rewrite (map_ext (fun x => firstn l (skipn (S x * l) bs))
                     (fun x => firstn l (skipn (x * l) (skipn l bs)))).
    2: { intros x. rewrite skipn_skipn. f_equal. f_equal. lia. }
    rewrite IH by (rewrite length_skipn; lia).
    cbn [skipn Nat.mul]. apply firstn_skipn.
Qed.

Lemma slices_length (l n : nat) (bs : list Z) :
  List.length bs = (l * n)%nat ->
  Forall (fun c => List.length c = l) (map (fun i => firstn l (skipn (i * l) bs)) (seq 0 n)).
Proof.
  intros Hl. apply Forall_forall. intros c Hc. apply in_map_iff in Hc.
  destruct Hc as (i & <- & Hi). apply in_seq in Hi.
  rewrite length_firstn, length_skipn. nia.
Qed.

Lemma py_slice_chunk (l n i : nat) (bs : list Z) :
  List.length bs = (l * n)%nat -> (i < n)%nat ->
  py_slice (Z.of_nat i * Z.of_nat l) ((Z.of_nat i + 1) * Z.of_nat l) bs =
  firstn l (skipn (i * l) bs).
Proof.
  intros Hl Hi. unfold py_slice, py_index. rewrite Hl.
  replace (Z.of_nat i * Z.of_nat l <? 0) with false by (symmetry; apply Z.ltb_ge; lia).
  replace ((Z.of_nat i + 1) * Z.of_nat l <? 0) with false by (symmetry; apply Z.ltb_ge; lia).
  rewrite Z.min_l by nia. rewrite Z.min_l by nia.
  f_equal; [|f_equal; lia]. nia.
Qed.

Lemma bytes_array_slices (p : param) (l n : nat) :
  dimensions p = [Z.of_nat l; Z.of_nat n] ->
  List.length (pbytes p) = (l * n)%nat ->
  bytes_array p = Ok (map (fun i => firstn l (skipn (i * l) (pbytes p))) (seq 0 n)).
Proof.
  intros Hd Hl. unfold bytes_array. rewrite Hd, Nat2Z.id, map_map. f_equal.
  apply map_ext_in. intros i Hi. apply in_seq in Hi.
  apply (py_slice_chunk l n i); [exact Hl|lia].
Qed.

Lemma forallb_slice (f : Z -> bool) (k j : nat) (bs : list Z) :
  forallb f bs = true -> forallb f (firstn k (skipn j bs)) = true.
Proof.
  intros H. rewrite <- (firstn_skipn j bs), forallb_app in H.
  apply andb_prop in H. destruct H as [_ H].
  rewrite <- (firstn_skipn k (skipn j bs)), forallb_app in H.
  apply andb_prop in H. exact (proj1 H).
Qed.

Lemma decode_utf8_ascii (bs : list Z) :
  forallb (fun b => (0 <=? b) && (b <? 128)) bs = true ->
  exists s, decode_utf8 bs = Ok s /\ str_bytes s = bs.
Proof.
  intros H. rewrite (decode_utf8_ascii_ok bs H). eexists. split; [reflexivity|].
  unfold str_bytes, bytes_to_string. rewrite list_ascii_of_string_of_list_ascii, map_map.
  rewrite <- (map_id bs) at 2. apply map_ext_in. intros b Hb.
  rewrite forallb_forall in H. specialize (H b Hb).
  apply andb_prop in H. destruct H as [H1 H2]. apply Z.leb_le in H1. apply Z.ltb_lt in H2.
  rewrite nat_ascii_embedding by lia. lia.
Qed.

Lemma decode_all_ascii (bss : list (list Z)) :
  Forall (fun bs => forallb (fun b => (0 <=? b) && (b <? 128)) bs = true) bss ->
  exists ss, decode_all bss = Ok ss /\ map str_bytes ss = bss.
Proof.
  induction 1 as [|bs bss Hbs Hf IH]; [exists []; split; reflexivity|].
  destruct (decode_utf8_ascii bs Hbs) as (s & Hs & Hs').
  destruct IH as (ss & Hss & Hss').
  exists (s :: ss). cbn [decode_all]. rewrite Hs, Hss. split; [reflexivity|].
  cbn [map]. rewrite Hs', Hss'. reflexivity.
Qed.

Lemma string_array_slices (p : param) (l n : nat) :
  dimensions p = [Z.of_nat l; Z.of_nat n] ->
  List.length (pbytes p) = (l * n)%nat ->
  string_array p = decode_all (map (fun i => firstn l (skipn (i * l) (pbytes p))) (seq 0 n)).
Proof.
  intros Hd Hl. unfold string_array. rewrite Hd, Nat2Z.id, map_map. f_equal.
  apply map_ext_in. intros i Hi. apply in_seq in Hi.
  apply (py_slice_chunk l n i); [exact Hl|lia].
Qed.

Lemma point_labels_get (m : manager) (p : param) :
  get_param m "POINT" "LABELS" = Some p -> point_labels m = string_array p.
Proof.
  intros H. unfold point_labels.
  change "POINT:LABELS" with ("POINT" ++ ":" ++ "LABELS")%string.
  rewrite manager_get_colon by reflexivity.
  change (upper "POINT") with "POINT". change (upper "LABELS") with "LABELS".
  rewrite H. reflexivity.
Qed.

(** [Param.bytes_array] of a parameter with dimensions [[l, n]] and
    [l * n] data bytes cuts the data into [n] consecutive slices of [l]
    bytes each, in order. *)
Theorem bytes_array_split (p : param) (l n : Z) :
  dimensions p = [l; n] -> 0 <= l -> 0 <= n ->
  Z.of_nat (List.length (pbytes p)) = l * n ->
  exists bss,
    bytes_array p = Ok bss /\
    Z.of_nat (List.length bss) = n /\
    Forall (fun c => Z.of_nat (List.length c) = l) bss /\
    List.concat bss = pbytes p.
Proof.
  intros Hd Hl0 Hn0 Hlen.
  rewrite <- (Z2Nat.id l) in Hd, Hlen |- * by exact Hl0.
  rewrite <- (Z2Nat.id n) in Hd, Hlen |- * by exact Hn0.
  set (ln := Z.to_nat l) in *. set (nn := Z.to_nat n) in *.
  assert (Hl : List.length (pbytes p) = (ln * nn)%nat) by lia.
  eexists. split; [exact (bytes_array_slices p ln nn Hd Hl)|].
  split; [rewrite length_map, length_seq; reflexivity|].
  split; [|apply slices_concat; exact Hl].
  eapply Forall_impl; [|exact (slices_length ln nn _ Hl)]. intros c Hc. cbn beta in Hc. lia.
Qed.

(** [Manager.point_labels()] on a POINT:LABELS parameter with dimensions
    [[l, n]] and [l * n] ASCII data bytes gives [n] labels of [l]
    characters each, the consecutive [l]-byte slices of the data. *)
Theorem point_labels_split (m : manager) (p : param) (l n : Z) :
  get_param m "POINT" "LABELS" = Some p ->
  dimensions p = [l; n] -> 0 <= l -> 0 <= n ->
  Z.of_nat (List.length (pbytes p)) = l * n ->
  forallb (fun b => (0 <=? b) && (b <? 128)) (pbytes p) = true ->
  exists labels,
    point_labels m = Ok labels /\
    Z.of_nat (List.length labels) = n /\
    Forall (fun s => Z.of_nat (String.length s) = l) labels /\
    List.concat (map str_bytes labels) = pbytes p.
Proof.
  intros Hp Hd Hl0 Hn0 Hlen Ha.
  rewrite <- (Z2Nat.id l) in Hd, Hlen |- * by exact Hl0.
  rewrite <- (Z2Nat.id n) in Hd, Hlen |- * by exact Hn0.
  set (ln := Z.to_nat l) in *. set (nn := Z.to_nat n) in *.
  assert (Hl : List.length (pbytes p) = (ln * nn)%nat) by lia.
  destruct (decode_all_ascii (map (fun i => firstn ln (skipn (i * ln) (pbytes p))) (seq 0 nn)))
    as (ss & Hss & Hmap).
  { apply Forall_forall. intros c Hc. apply in_map_iff in Hc.
    destruct Hc as (i & <- & _). apply forallb_slice. exact Ha. }
  exists ss. split.
  { rewrite (point_labels_get m p Hp), (string_array_slices p ln nn Hd Hl). exact Hss. }
  split; [|split].
  - rewrite <- (length_map str_bytes ss), Hmap, length_map, length_seq. reflexivity.
  - pose proof (slices_length ln nn _ Hl) as Hf. rewrite <- Hmap in Hf.
    apply Forall_map in Hf. eapply Forall_impl; [|exact Hf].
    intros s Hs. cbn beta in Hs. rewrite str_bytes_length in Hs. lia.
  - rewrite Hmap. apply slices_concat. exact Hl.
Qed.

(** [Manager.get] upper-cases its key, so any capitalisation works; for a
    group name without '.' or ':' and a parameter name without '.',
    ["G:P"] and ["G.P"] find the same parameter, and in ["G:P.Q"] the
    split at '.' comes first, so the [".Q"] part is dropped and the key
    finds parameter [P] of group [G]. *)
Theorem manager_get_key_forms (m : manager) (gn pn q : string) :
  split_once "." gn = None -> split_once ":" gn = None -> split_once "." pn = None ->
  manager_get m (KName (gn ++ ":" ++ pn)) = option_map GotParam (get_param m (upper gn) (upper pn)) /\
  manager_get m (KName (gn ++ "." ++ pn)) = option_map GotParam (get_param m (upper gn) (upper pn)) /\
  manager_get m (KName (gn ++ ":" ++ pn ++ "." ++ q)) =
    option_map GotParam (get_param m (upper gn) (upper pn)).
Proof.
  intros H1 H2 H3. split; [|split].
  - apply manager_get_colon; assumption.
  - apply manager_get_dot; assumption.
  - apply manager_get_colon_dot; assumption.
Qed.

Lemma manager_get_key_forms_witness :
  manager_get (example_manager default_header) (KName ("point" ++ ":" ++ "used")) =
    option_map GotParam (get_param (example_manager default_header) (upper "point") (upper "used")) /\
  manager_get (example_manager default_header) (KName ("point" ++ "." ++ "used")) =
    option_map GotParam (get_param (example_manager default_header) (upper "point") (upper "used")) /\
  manager_get (example_manager default_header) (KName ("point" ++ ":" ++ "used" ++ "." ++ "x")) =
    option_map GotParam (get_param (example_manager default_header) (upper "point") (upper "used")).
Proof. apply manager_get_key_forms; reflexivity. Defined.

(** [Manager.get_uint16('G:P')] and [Manager.get_float('G:P')] read the
    parameter [P] of group [G] (names upper-cased) as [struct] does; when
    the group or the parameter is missing they raise [AttributeError] on
    [None]: this is the lookup [points_per_frame], [scale_factor],
    [frame_rate] and [check_metadata] go through. *)
Theorem manager_get_as_colon (m : manager) (gn pn : string) :
  split_once "." gn = None -> split_once ":" gn = None -> split_once "." pn = None ->
  manager_get_as FH m (gn ++ ":" ++ pn) = (z <- get_uint16 m (upper gn) (upper pn) ;; Ok (VInt z)) /\
  manager_get_as Ff m (gn ++ ":" ++ pn) = (x <- get_float m (upper gn) (upper pn) ;; Ok (VFloat x)).
Proof.
  intros H1 H2 H3. unfold manager_get_as, get_uint16, get_float.
  rewrite manager_get_colon by assumption.
  destruct (get_param m (upper gn) (upper pn)) as [p|]; split; reflexivity.
Qed.

Lemma manager_get_as_colon_witness :
  manager_get_as FH (example_manager default_header) ("Point" ++ ":" ++ "Used") =
    (z <- get_uint16 (example_manager default_header) (upper "Point") (upper "Used") ;; Ok (VInt z)) /\
  manager_get_as Ff (example_manager default_header) ("Point" ++ ":" ++ "Used") =
    (x <- get_float (example_manager default_header) (upper "Point") (upper "Used") ;; Ok (VFloat x)).
Proof. apply manager_get_as_colon; reflexivity. Defined.

Lemma param_as_norm (f : fmt) (p : param) : param_as f (norm_param p) = param_as f p.
Proof. destruct f; reflexivity. Qed.

(** [Group.add_param(name, ...)] followed by [Group.get_<fmt>(key)]: a key
    equal to the name up to case finds the new parameter (replacing one
    of the same name); any other key sees the group as before, and a key
    the group does not hold raises [KeyError]. *)
Theorem group_add_param_then_get (f : fmt) (g : group) (p : param) (k : string) :
  group_get_as f (group_add_param g p) k =
  if String.eqb (upper k) (upper (pname p)) then param_as f p
  else match dict_get String.eqb (upper k) (gparams g) with
       | None => Err (KeyError_name (upper k))
       | Some q => param_as f q
       end.
Proof.
  unfold group_get_as. rewrite group_add_param_get.
  destruct (String.eqb (upper k) (upper (pname p))); [apply param_as_norm|reflexivity].
Qed.

(** [Group.add_param(name, bytes=struct.pack(fmt, v))] followed by
    [Group.get_<fmt>(key)] with a key equal to the name up to case gives
    [v] back, for each integer format and every [v] in its range. *)
Theorem group_pack_add_get (g : group) (name desc key : string) (bpe : Z) (dims : list Z) (v : Z) :
  upper key = upper name ->
  let add b := group_add_param g (mkParam name desc bpe dims b) in
  (0 <= v <= 255 -> (b <- pack_B v ;; group_get_as FB (add b) key) = Ok (VInt v)) /\
  (-128 <= v <= 127 -> (b <- pack_b v ;; group_get_as Fb (add b) key) = Ok (VInt v)) /\
  (0 <= v <= 65535 -> (b <- pack_H v ;; group_get_as FH (add b) key) = Ok (VInt v)) /\
  (-32768 <= v <= 32767 -> (b <- pack_h v ;; group_get_as Fh (add b) key) = Ok (VInt v)) /\
  (0 <= v <= 4294967295 -> (b <- pack_I v ;; group_get_as FI (add b) key) = Ok (VInt v)) /\
  (-2147483648 <= v <= 2147483647 -> (b <- pack_i v ;; group_get_as Fi (add b) key) = Ok (VInt v)).
Proof.
  intros Hk add.
  assert (Hg : forall f b, group_get_as f (add b) key = param_as f (mkParam name desc bpe dims b)).
  { intros f b. unfold add, group_get_as. rewrite group_add_param_get. cbn [pname].
    rewrite Hk, String.eqb_refl. apply param_as_norm. }
  unfold pack_B, pack_b, pack_H, pack_h, pack_I, pack_i, pack_int.
  repeat split; intros Hv;
    repeat match goal with
    | |- context [(?a <=? ?b)] =>
        replace (a <=? b) with true by (symmetry; apply Z.leb_le; lia)
    end; cbn [andb bind]; rewrite Hg;
    cbn [le_bytes bind param_as pbytes unpack_B unpack_b unpack_H unpack_h unpack_I unpack_i];
    do 2 f_equal;
    unfold signed8, signed16, signed32, uint16_le, uint32_le, le32;
    repeat match goal with |- context [if ?c then _ else _] => destruct c eqn:? end;
    rewrite ?Z.ltb_lt, ?Z.ltb_ge in *;
    Z.to_euclidean_division_equations; lia.
Qed.

Lemma group_pack_add_get_witness :
  let add b := group_add_param example_point_group (mkParam "USED" EmptyString 2 [] b) in
  (b <- pack_H 7 ;; group_get_as FH (add b) "used") = Ok (VInt 7).
Proof.
  exact (proj1 (proj2 (proj2 (group_pack_add_get example_point_group "USED" EmptyString "used"
                                2 [] 7 eq_refl))) ltac:(lia)).
Defined.

Lemma bytes_array_split_witness :
  exists bss,
    bytes_array (mkParam "LABELS" EmptyString (-1) [2; 3] [65; 66; 67; 68; 69; 70]) = Ok bss /\
    Z.of_nat (List.length bss) = 3 /\
    Forall (fun c => Z.of_nat (List.length c) = 2) bss /\
    List.concat bss = [65; 66; 67; 68; 69; 70].
Proof.
  apply (bytes_array_split (mkParam "LABELS" EmptyString (-1) [2; 3] [65; 66; 67; 68; 69; 70]) 2 3);
    try reflexivity; lia.
Defined.

Lemma point_labels_split_witness :
  let lp := mkParam "LABELS" EmptyString (-1) [2; 3] [65; 66; 67; 68; 69; 70] in
  let m := mkManager default_header [mkGroup (Some "POINT") (Some EmptyString) [("LABELS", lp)]]
                     [(KId 1, 0%nat); (KName "POINT", 0%nat)] in
  exists labels,
    point_labels m = Ok labels /\
    Z.of_nat (List.length labels) = 3 /\
    Forall (fun s => Z.of_nat (String.length s) = 2) labels /\
    List.concat (map str_bytes labels) = pbytes lp.
Proof.
  intros lp m. apply (point_labels_split m lp 2 3); try reflexivity; lia.
Defined.

Lemma header_read_good_magic (hd : header) (h : handle) :
  (512 <= List.length (contents h))%nat -> nth 1 (contents h) 0 = 80 ->
  exists hd',
    header_read (hd, h) = (Ok tt, (hd', mkHandle (contents h) 512 (reads h ++ [(0%nat, 512)]))) /\
    parameter_block hd' = nth 0 (contents h) 0.
Proof.
  intros Hlen Hm. destruct h as [c p r]; cbn [contents reads] in *.
  pose proof (hread_at_0 c r 512 ltac:(lia)) as E.
  assert (Hbl : List.length (firstn (Z.to_nat 512) c) = 512%nat) by (rewrite firstn_length_le; lia).
  assert (Hb0 : nth 0 (firstn (Z.to_nat 512) c) 0 = nth 0 c 0).
  { destruct c as [|x0 rest]; reflexivity. }
  assert (Hb1 : nth 1 (firstn (Z.to_nat 512) c) 0 = nth 1 c 0).
  { destruct c as [|x0 [|x1 rest]]; reflexivity. }
  rewrite Hbl in E.
  set (bs := firstn (Z.to_nat 512) c) in *. clearbody bs.
  unfold header_read.
  change (hseek 0 (mkHandle c p r)) with (@Ok handle (mkHandle c 0 r)).
  cbv beta iota. rewrite E. cbv beta iota.
  unfold unpack_header. rewrite Hbl. cbv beta iota. cbn [negb Nat.eqb].
  rewrite Hb1, Hm. cbn [Z.eqb Pos.eqb].
  eexists. split; [reflexivity|]. cbn [parameter_block]. exact Hb0.
Qed.

Lemma firstn4_skipn (k : nat) (l : list Z) :
  (k + 4 <= List.length l)%nat ->
  firstn 4 (skipn k l) = [nth k l 0; nth (k + 1) l 0; nth (k + 2) l 0; nth (k + 3) l 0].
Proof.
  intros Hl. rewrite <- !nth_skipn_Z, <- (Nat.add_0_r k), <- nth_skipn_Z, Nat.add_0_r.
  assert (Hs : (4 <= List.length (skipn k l))%nat) by (rewrite length_skipn; lia).
  destruct (skipn k l) as [|x0 [|x1 [|x2 [|x3 rest]]]]; cbn in Hs; try lia. reflexivity.
Qed.

(** [Reader.__init__] after a valid header: a parameter_block byte of 0
    makes the seek to [(0 - 1) * 512] raise [IOError] (errno 22, invalid
    argument), as [file.seek] does on a negative offset; otherwise the
    4-byte parameter-section header is read at [(parameter_block - 1) *
    512] and a processor byte other than 84 (Intel) raises [ValueError]
    before any parameter is read. *)
Theorem reader_init_start_errors (uc : Z -> Z) (fuel : nat) (h : handle) :
  (512 <= List.length (contents h))%nat -> nth 1 (contents h) 0 = 80 ->
  let pb := nth 0 (contents h) 0 in
  (pb = 0 ->
   exists h', reader_init uc fuel h = Some (Err (IOError "[Errno 22] Invalid argument"), h')) /\
  (1 <= pb -> (Z.to_nat ((pb - 1) * 512) + 4 <= List.length (contents h))%nat ->
   nth (Z.to_nat ((pb - 1) * 512) + 3) (contents h) 0 <> 84 ->
   exists h', reader_init uc fuel h = Some (Err (ValueError "we only read Intel C3D files"), h')).
Proof.
  intros Hlen Hm pb.
  destruct (header_read_good_magic default_header h Hlen Hm) as (hd' & E & Hpb).
  unfold reader_init. rewrite E. rewrite Hpb. fold pb.
  split.
  - intros H0. rewrite H0. cbn [Z.sub Z.mul]. unfold hseek. cbn. eexists. reflexivity.
  - intros H1 Hle Hp. unfold hseek.
    replace ((pb - 1) * 512 <? 0) with false by (symmetry; apply Z.ltb_ge; lia).
    unfold hread at 1. cbn [hpos contents reads].
    replace (4 <? 0) with false by reflexivity. cbn [Z.to_nat Pos.to_nat].
    rewrite firstn4_skipn by exact Hle.
    replace (nth (Z.to_nat ((pb - 1) * 512) + 3) (contents h) 0 =? 84) with false
      by (symmetry; apply Z.eqb_neq; exact Hp).
    cbn [negb]. eexists. reflexivity.
Qed.

Lemma reader_init_start_errors_witness :
  let h := mkHandle (example_header_bytes ++ [0; 0; 1; 83] ++ repeat 0 508) 0 [] in
  nth 1 (contents h) 0 = 80 /\
  forall uc : Z -> Z,
  exists h', reader_init uc 10 h = Some (Err (ValueError "we only read Intel C3D files"), h').
Proof.
  intros h.
  assert (H1 : (512 <= List.length (contents h))%nat) by (vm_compute; lia).
  assert (H2 : nth 1 (contents h) 0 = 80) by reflexivity.
  split; [exact H2|]. intros uc.
  apply (proj2 (reader_init_start_errors uc 10 h H1 H2)).
  - apply Z.leb_le. vm_compute. reflexivity.
  - apply Nat.leb_le. vm_compute. reflexivity.
  - vm_compute. discriminate.
Defined.

Lemma shiftl8_mod256 (x : Z) : Z.shiftl x 8 mod 256 = 0.
Proof. rewrite Z.shiftl_mul_pow2 by lia. change (2 ^ 8) with 256. apply Z.mod_mul. lia. Qed.

(** [_write_frames] never records the camera count: numpy keeps
    [uint8 << 8] in 8 bits, so the shifted camera byte is 0 and the 4th
    value of a valid point is its residual error divided by the scale,
    truncated to uint16, whatever the camera count. *)
Theorem encode_row_drops_cameras (scale psf : float) (prev : row) (p : point) :
  PrimFloat.ltb (PrimFloat.opp 1%float) (perr p) = true ->
  r3 (encode_row scale psf prev p) = float_of_Z (f_astype_uint16 (PrimFloat.div (perr p) scale)) /\
  forall cam, encode_row scale psf prev (mkPoint (px p) (py p) (pz p) (perr p) cam) =
              encode_row scale psf prev p.
Proof.
  intros Hv. unfold encode_row. cbn [px py pz perr pcam]. rewrite Hv. split.
  - cbn [r3]. rewrite shiftl8_mod256, Z.lor_0_l. reflexivity.
  - intros cam. rewrite !shiftl8_mod256. reflexivity.
Qed.

Lemma encode_row_drops_cameras_witness :
  PrimFloat.ltb (PrimFloat.opp 1%float) (perr (mkPoint 1 2 3 4 5)) = true /\
  r3 (encode_row 1 1 (mkRow 0 0 0 0) (mkPoint 1 2 3 4 5)) =
    float_of_Z (f_astype_uint16 (PrimFloat.div (perr (mkPoint 1 2 3 4 5)) 1)) /\
  forall cam, encode_row 1 1 (mkRow 0 0 0 0) (mkPoint 1 2 3 4 cam) =
              encode_row 1 1 (mkRow 0 0 0 0) (mkPoint 1 2 3 4 5).
Proof.
  assert (H : PrimFloat.ltb (PrimFloat.opp 1%float) (perr (mkPoint 1 2 3 4 5)) = true)
    by (vm_compute; reflexivity).
  split; [exact H|]. exact (encode_row_drops_cameras 1 1 (mkRow 0 0 0 0) (mkPoint 1 2 3 4 5) H).
Defined.

Lemma write_frame_float (scale psf : float) (ppf : nat) (raw : list row) (f : frame) :
  List.length (fpoints f) = ppf ->
  write_frame true scale psf ppf raw f =
  Ok (raw_after scale psf raw [f],
      map (fun v => CFloat (to_float32 v)) (flat_map row_values (raw_after scale psf raw [f]))).
Proof.
  intros H. unfold write_frame. rewrite H, Nat.eqb_refl. cbn [negb array_extend bind app].
  rewrite app_nil_r. reflexivity.
Qed.

Lemma raw_after_length (scale psf : float) (ppf : nat) (raw : list row) (fs : list frame) :
  List.length raw = ppf -> Forall (fun g => List.length (fpoints g) = ppf) fs ->
  List.length (raw_after scale psf raw fs) = ppf.
Proof.
  intros Hr Hf. unfold raw_after. revert raw Hr.
  induction Hf as [|g fs Hg Hf IH]; intros raw Hr; cbn [fold_left]; [exact Hr|].
  apply IH. rewrite length_map, length_combine. lia.
Qed.

Lemma flat_map_row_values_length (rs : list row) :
  List.length (flat_map row_values rs) = (4 * List.length rs)%nat.
Proof. induction rs as [|r rs IH]; cbn [flat_map List.length]; [reflexivity|]. rewrite length_app, IH. cbn. lia. Qed.

Lemma write_frames_loop_float_end (scale psf : float) (ppf : nat) (raw : list row)
    (fs : list frame) (out : list cell) :
  Forall (fun g => List.length (fpoints g) = ppf) fs ->
  snd (write_frames_loop true scale psf ppf raw fs out) =
    Err (AttributeError "'Writer' object has no attribute '_handle'") /\
  exists ys, fst (write_frames_loop true scale psf ppf raw fs out) = out ++ ys.
Proof.
  intros Hf. revert raw out.
  induction Hf as [|g fs Hg Hf IH]; intros raw out.
  - split; [reflexivity|]. exists []. rewrite app_nil_r. reflexivity.
  - cbn [write_frames_loop]. rewrite write_frame_float by exact Hg.
    destruct (IH (raw_after scale psf raw [g])
                 (out ++ map (fun v => CFloat (to_float32 v))
                             (flat_map row_values (raw_after scale psf raw [g]))))
      as (H1 & ys & H2).
    split; [exact H1|]. rewrite H2, <- app_assoc. eexists. reflexivity.
Qed.

Lemma write_frames_loop_float_app (scale psf : float) (ppf : nat) (raw : list row)
    (fs1 fs : list frame) (out : list cell) :
  List.length raw = ppf -> Forall (fun g => List.length (fpoints g) = ppf) fs1 ->
  exists xs, List.length xs = (4 * ppf * List.length fs1)%nat /\
    write_frames_loop true scale psf ppf raw (fs1 ++ fs) out =
    write_frames_loop true scale psf ppf (raw_after scale psf raw fs1) fs (out ++ xs).
Proof.
  intros Hr Hf. revert raw out Hr.
  induction Hf as [|g fs1 Hg Hf IH]; intros raw out Hr.
  - exists []. split; [cbn; lia|]. rewrite app_nil_r. reflexivity.
  - cbn [app write_frames_loop]. rewrite write_frame_float by exact Hg.
    assert (Hr' : List.length (raw_after scale psf raw [g]) = ppf)
      by (apply raw_after_length; [exact Hr|constructor; [exact Hg|constructor]]).
    destruct (IH (raw_after scale psf raw [g])
                 (out ++ map (fun v => CFloat (to_float32 v))
                             (flat_map row_values (raw_after scale psf raw [g]))) Hr')
      as (xs & Hxs & E).
    eexists. split.
    2: { rewrite E, <- app_assoc. reflexivity. }
    rewrite length_app, length_map, flat_map_row_values_length, Hr', Hxs.
    cbn [List.length]. lia.
Qed.

Lemma skipn_length_app {A} (xs ys : list A) (k : nat) :
  skipn (List.length xs + k) (xs ++ ys) = skipn k ys.
Proof. induction xs as [|x xs IH]; [reflexivity|]. exact IH. Qed.

Lemma firstn4_skipn_app {A} (k : nat) (ws ys : list A) :
  (k + 4 <= List.length ws)%nat ->
  firstn 4 (skipn k (ws ++ ys)) = firstn 4 (skipn k ws).
Proof.
  intros Hk. rewrite skipn_app, firstn_app, length_skipn.
  replace (4 - (List.length ws - k))%nat with 0%nat by lia.
  rewrite app_nil_r. reflexivity.
Qed.

Lemma firstn4_skipn_rows (rs : list row) (i : nat) (d : row) :
  (i < List.length rs)%nat ->
  firstn 4 (skipn (4 * i) (flat_map row_values rs)) = row_values (nth i rs d).
Proof.
  revert i. induction rs as [|r rs IH]; intros i Hi; [cbn in Hi; lia|].
  destruct i as [|i]; [destruct r; reflexivity|].
  replace (4 * S i)%nat with (4 + 4 * i)%nat by lia.
  cbn [flat_map]. destruct r. cbn [row_values app skipn Nat.add].
  apply IH. cbn in Hi. lia.
Qed.

Lemma nth_encode_rows (scale psf : float) (rs : list row) (ps : list point)
    (i : nat) (p : point) (d : row) :
  List.length rs = List.length ps -> nth_error ps i = Some p ->
  nth i (map (fun '(prev, p) => encode_row scale psf prev p) (combine rs ps)) d =
  encode_row scale psf (nth i rs d) p.
Proof.
  revert ps i. induction rs as [|r rs IH]; intros ps i Hl Hi.
  - destruct ps; [destruct i; discriminate|discriminate].
  - destruct ps as [|q ps]; [discriminate|].
    destruct i as [|i]; cbn in Hi |- *.
    + injection Hi as ->. reflexivity.
    + apply IH; [injection Hl as Hl; exact Hl|exact Hi].
Qed.

(** In float storage (a negative POINT:SCALE), take frames whose points
    arrays all have [points_per_frame()] rows, and a point that is invalid
    (residual error at most -1) as row [i] of a frame preceded by the
    frames [fs1].  [_write_frames] writes that point, in the 4 cells at
    offset 4 x (ppf x len(fs1) + i), with the x, y, z of row [i] of [raw]
    as the earlier frames left it (the content of [np.empty] when there is
    none), and -1 as its 4th value, each rounded to binary32.  After the
    frames, [self._pad_block()] raises [AttributeError], since a [Writer]
    has no [_handle]. *)
Theorem write_frames_invalid_repeats (tell db : Z) (sf psf : float) (ppf : nat)
    (raw0 : list row) (fs1 fs2 : list frame) (f : frame) (i : nat) (p : point) :
  PrimFloat.ltb sf 0 = true ->
  tell = 512 * (db - 1) ->
  Forall (fun g => List.length (fpoints g) = ppf) (fs1 ++ f :: fs2) ->
  List.length raw0 = ppf ->
  nth_error (fpoints f) i = Some p ->
  PrimFloat.ltb (PrimFloat.opp 1%float) (perr p) = false ->
  let prev := nth i (raw_after (PrimFloat.abs sf) psf raw0 fs1) (mkRow 0 0 0 0) in
  firstn 4 (skipn (4 * ppf * List.length fs1 + 4 * i)
                  (fst (write_frames tell db sf psf ppf raw0 (fs1 ++ f :: fs2)))) =
    [CFloat (to_float32 (r0 prev)); CFloat (to_float32 (r1 prev));
     CFloat (to_float32 (r2 prev)); CFloat (PrimFloat.opp 1)] /\
  snd (write_frames tell db sf psf ppf raw0 (fs1 ++ f :: fs2)) =
    Err (AttributeError "'Writer' object has no attribute '_handle'").
Proof.
  intros Hsf Ht Hf Hr Hi Hp prev.
  apply Forall_app in Hf. destruct Hf as [Hf1 Hf2].
  inversion Hf2 as [|g fs Hff Hf2' Eg]; subst g fs.
  assert (Hip : (i < ppf)%nat) by (rewrite <- Hff; apply nth_error_Some; rewrite Hi; discriminate).
  unfold write_frames. rewrite Ht, Z.eqb_refl, Hsf. cbn [negb].
  set (scale := PrimFloat.abs sf) in *.
  destruct (write_frames_loop_float_app scale psf ppf raw0 fs1 (f :: fs2) [] Hr Hf1)
    as (xs & Hxs & E).
  rewrite E. cbn [write_frames_loop]. rewrite write_frame_float by exact Hff.
  set (R := raw_after scale psf raw0 fs1) in *.
  set (R' := raw_after scale psf R [f]).
  set (ws := map (fun v => CFloat (to_float32 v)) (flat_map row_values R')).
  destruct (write_frames_loop_float_end scale psf ppf R' fs2 (([] ++ xs) ++ ws) Hf2')
    as (Hend & ys & Hys).
  split; [|exact Hend].
  assert (HR : List.length R = ppf) by (apply raw_after_length; assumption).
  assert (HR' : List.length R' = ppf)
    by (apply raw_after_length; [exact HR|constructor; [exact Hff|constructor]]).
  assert (Hws : List.length ws = (4 * ppf)%nat)
    by (unfold ws; rewrite length_map, flat_map_row_values_length, HR'; reflexivity).
  rewrite Hys, app_nil_l, <- !app_assoc, <- Hxs, skipn_length_app.
  rewrite firstn4_skipn_app by lia.
  unfold ws. rewrite skipn_map, firstn_map.
  rewrite (firstn4_skipn_rows R' i (mkRow 0 0 0 0)) by lia.
  unfold R'. unfold raw_after at 1. cbn [fold_left].
  rewrite (nth_encode_rows scale psf R (fpoints f) i p) by (try rewrite HR, Hff; first [reflexivity | exact Hi]).
  fold prev. unfold encode_row. rewrite Hp.
  assert (Hm1 : to_float32 (PrimFloat.opp 1) = PrimFloat.opp 1) by (vm_compute; reflexivity).
  cbn [row_values r0 r1 r2 r3 map]. rewrite Hm1. reflexivity.
Qed.

Lemma write_frames_invalid_repeats_witness :
  PrimFloat.ltb (PrimFloat.opp 1%float) (perr (mkPoint 7 8 9 (PrimFloat.opp 1) 0)) = false /\
  let prev := nth 1 (raw_after 1 1 [mkRow 0 0 0 0; mkRow 0 0 0 0]
                       [mkFrame [mkPoint 1 2 3 0 0; mkPoint 4 5 6 0 0] []]) (mkRow 0 0 0 0) in
  firstn 4 (skipn (4 * 2 * 1 + 4 * 1)
     (fst (write_frames 512 2 (PrimFloat.opp 1) 1 2 [mkRow 0 0 0 0; mkRow 0 0 0 0]
             [mkFrame [mkPoint 1 2 3 0 0; mkPoint 4 5 6 0 0] [];
              mkFrame [mkPoint 1 2 3 0 0; mkPoint 7 8 9 (PrimFloat.opp 1) 0] [];
              mkFrame [mkPoint 0 0 0 0 0; mkPoint 0 0 0 0 0] []]))) =
    [CFloat (to_float32 (r0 prev)); CFloat (to_float32 (r1 prev));
     CFloat (to_float32 (r2 prev)); CFloat (PrimFloat.opp 1)] /\
  snd (write_frames 512 2 (PrimFloat.opp 1) 1 2 [mkRow 0 0 0 0; mkRow 0 0 0 0]
         [mkFrame [mkPoint 1 2 3 0 0; mkPoint 4 5 6 0 0] [];
          mkFrame [mkPoint 1 2 3 0 0; mkPoint 7 8 9 (PrimFloat.opp 1) 0] [];
          mkFrame [mkPoint 0 0 0 0 0; mkPoint 0 0 0 0 0] []]) =
    Err (AttributeError "'Writer' object has no attribute '_handle'").
Proof.
  assert (Hp : PrimFloat.ltb (PrimFloat.opp 1%float) (perr (mkPoint 7 8 9 (PrimFloat.opp 1) 0)) = false)
    by (vm_compute; reflexivity).
  split; [exact Hp|].
  exact (write_frames_invalid_repeats 512 2 (PrimFloat.opp 1) 1 2 [mkRow 0 0 0 0; mkRow 0 0 0 0]
           [mkFrame [mkPoint 1 2 3 0 0; mkPoint 4 5 6 0 0] []]
           [mkFrame [mkPoint 0 0 0 0 0; mkPoint 0 0 0 0 0] []]
           (mkFrame [mkPoint 1 2 3 0 0; mkPoint 7 8 9 (PrimFloat.opp 1) 0] [])
           1 (mkPoint 7 8 9 (PrimFloat.opp 1) 0)
           ltac:(vm_compute; reflexivity) ltac:(reflexivity)
           ltac:(repeat constructor) ltac:(reflexivity) ltac:(reflexivity) Hp).
Defined.

Lemma struct_pack_unpack_int_witness :
  (b <- pack_H 300 ;; unpack_H b) = Ok 300 /\ pack_H (-1) = Err StructError.
Proof.
  destruct (struct_pack_unpack_int 300) as (_ & _ & H300 & _).
  destruct (struct_pack_unpack_int (-1)) as (_ & _ & _ & _ & _ & _ & Hneg & _).
  split; [apply H300; lia | apply Hneg; lia].
Defined.
